(** * go-kardia: consensus reactor, evidence reactor, proposal type and header chain

    A shallow embedding of the Go sources
      - [blockchain/headerchain.go]  (HeaderChain, SetHead),
      - the consensus reactor        (ReceiveNewRoundStep, ReceiveNewVote,
                                      ReceiveNewProposal, PeerState.SetHasProposal),
      - [types/proposal.go]          (Proposal, NewProposal),
      - the evidence reactor         (Receive, checkSendEvidenceMessage),
    followed by the properties established about them. *)

From stdpp Require Import base numbers option list gmap.
From Stdlib Require Import ZArith Lia.

Local Open Scope Z_scope.

(* ===================================================================== *)
(** * Machine integers *)
(* ===================================================================== *)

Module GoInt.

Definition two64 : Z := 2 ^ 64.
Definition two63 : Z := 2 ^ 63.
Definition two32 : Z := 2 ^ 32.

Definition MaxInt64 : Z := two63 - 1.
Definition MinInt64 : Z := - two63.

(** Conversion to [uint64]: the value modulo 2^64. *)
Definition to_uint64 (z : Z) : Z := z mod two64.

(** Conversion to [uint32]: the value modulo 2^32. *)
Definition to_uint32 (z : Z) : Z := z mod two32.

(** Conversion to [int64] (and the result of every [int64] operation):
    two's complement wrap-around. *)
Definition to_int64 (z : Z) : Z := (z + two63) mod two64 - two63.

Definition is_uint64 (z : Z) : Prop := 0 <= z < two64.
Definition is_uint32 (z : Z) : Prop := 0 <= z < two32.

Definition sub64 (a b : Z) : Z := to_int64 (a - b).
Definition mul64 (a b : Z) : Z := to_int64 (a * b).

End GoInt.

(* ===================================================================== *)
(** * lib/common: BigInt behind a pointer *)
(* ===================================================================== *)

Module cmn.

(** Modelled from the spec: [cmn.BigInt], declared outside these
    sources, is an integer ("Height in N, Round in Z, -1 denotes none").
    The reactor holds it behind a pointer, [*cmn.BigInt], and keeps,
    copies and compares such pointers, so a value carries the address of
    the cell it points to besides the integer stored there.  The cells
    are never written after their allocation.  Nil pointers are not
    modelled. *)
Record BigInt : Type := mkBigInt { addr : positive; value : Z }.

(** Modelled from the spec: [x.Equals(y)], equality of the integers
    pointed to (the spec's "(psH, psR) /= (msg.H, msg.R)"). *)
Definition Equals (x y : BigInt) : bool := value x =? value y.

(** Go's [x == y] on two [*cmn.BigInt]: comparison of the pointers. *)
Definition ptr_eq (x y : BigInt) : bool := Pos.eqb (addr x) (addr y).

(** Computations that allocate: the next free address is threaded. *)
Definition Alloc (A : Type) : Type := positive -> A * positive.

Definition ret {A} (a : A) : Alloc A := fun n => (a, n).

Definition bind {A B} (m : Alloc A) (k : A -> Alloc B) : Alloc B :=
  fun n => let '(a, n') := m n in k a n'.

(** Modelled from the spec: [cmn.NewBigInt(x)], a pointer to a new cell
    holding [x]. *)
Definition NewBigInt (x : Z) : Alloc BigInt :=
  fun n => (mkBigInt n x, Pos.succ n).

(** Modelled from the spec: [x.Add(y)], a pointer to a new cell holding
    the sum (the spec's "psH+1 == msg.H"). *)
Definition Add (x : BigInt) (y : Z) : Alloc BigInt := NewBigInt (value x + y).

(** Modelled from the spec: [cmn.BitArray], a "fixed-size indexed bit
    array".  The handlers modelled here only store and copy pointers to
    bit arrays and never write through them, so a [*cmn.BitArray] is an
    [option BitArray], [None] being nil. *)
Definition BitArray : Type := list bool.

(** Modelled from the spec: [cmn.Hash], as the number whose big-endian
    bytes it is; [cmn.Hash{}] is 0. *)
Definition Hash : Type := N.
Definition Hash_zero : Hash := 0%N.

End cmn.

Notation "'let*' x ':=' m 'in' k" := (cmn.bind m (fun x => k))
  (at level 10, x name, m at level 100, k at level 200).

(* ===================================================================== *)
(** * consensus/types: round steps and the peer round state *)
(* ===================================================================== *)

Module cstypes.

(** Modelled from the spec: [cstypes.RoundStepType], whose declaration is
    not part of these sources.  "Step is an ordered enum {NewHeight,
    NewRound, Propose, Prevote, PrevoteWait, Precommit, PrecommitWait,
    Commit}". *)
Inductive RoundStepType : Type :=
| RoundStepNewHeight
| RoundStepNewRound
| RoundStepPropose
| RoundStepPrevote
| RoundStepPrevoteWait
| RoundStepPrecommit
| RoundStepPrecommitWait
| RoundStepCommit.

(** The position of a step in the enumeration. *)
Definition step_rank (s : RoundStepType) : Z :=
  match s with
  | RoundStepNewHeight => 1
  | RoundStepNewRound => 2
  | RoundStepPropose => 3
  | RoundStepPrevote => 4
  | RoundStepPrevoteWait => 5
  | RoundStepPrecommit => 6
  | RoundStepPrecommitWait => 7
  | RoundStepCommit => 8
  end.

(** Modelled from the spec: [cstypes.PeerRoundState], declared outside
    these sources: the fields that the spec lists for the mirror and
    that the reactor reads and writes, with the Go types that the
    reactor's assignments give them. *)
Record PeerRoundState : Type := mkPeerRoundState {
  Height : cmn.BigInt;
  Round : cmn.BigInt;
  Step : RoundStepType;
  StartTime : Z;
  Proposal : bool;
  ProposalBlockHeader : cmn.Hash;
  ProposalPOLRound : cmn.BigInt;
  ProposalPOL : option cmn.BitArray;
  Prevotes : option cmn.BitArray;
  Precommits : option cmn.BitArray;
  LastCommitRound : cmn.BigInt;
  LastCommit : option cmn.BitArray;
  CatchupCommitRound : cmn.BigInt;
  CatchupCommit : option cmn.BitArray
}.

End cstypes.

(* ===================================================================== *)
(** * types: proposals and votes as the consensus reactor sees them *)
(* ===================================================================== *)

Module types.

Import cmn.

(** [types.Proposal] as the reactor uses it (its declaration of that
    time is outside these sources): height, round and POL round are
    [*cmn.BigInt]; of the block only [proposal.Block.Header().Hash()]
    is used, and the proposal carries the value of that expression. *)
Record Proposal : Type := mkProposal {
  prop_Height : BigInt;
  prop_Round : BigInt;
  prop_POLRound : BigInt;
  prop_Block_Header_Hash : Hash
}.

(** Modelled from the spec: [types.Vote], "uniquely identified by
    (height, round, type, validator_index)". *)
Record Vote : Type := mkVote {
  vote_Height : BigInt;
  vote_Round : BigInt;
  vote_Type : Z;
  vote_ValidatorIndex : BigInt
}.

End types.

(* ===================================================================== *)
(** * The consensus reactor *)
(* ===================================================================== *)

Module consensus.

Import cmn cstypes.
Import types(mkProposal, prop_Height, prop_Round, prop_POLRound,
             prop_Block_Header_Hash, Vote, mkVote).

(** ** Messages *)

(** [NewRoundStepMessage]. *)
Record NewRoundStepMessage : Type := mkNewRoundStepMessage {
  msg_Height : BigInt;
  msg_Round : BigInt;
  msg_Step : RoundStepType;
  msg_SecondsSinceStartTime : Z;
  msg_LastCommitRound : BigInt
}.

(** What travels on the wire: integers, no pointers. *)
Record WireNewRoundStep : Type := mkWireNewRoundStep {
  wire_Height : Z;
  wire_Round : Z;
  wire_Step : RoundStepType;
  wire_SecondsSinceStartTime : Z;
  wire_LastCommitRound : Z
}.

Record WireProposal : Type := mkWireProposal {
  wire_prop_Height : Z;
  wire_prop_Round : Z;
  wire_prop_POLRound : Z;
  wire_prop_Block_Header_Hash : Hash
}.

Record WireVote : Type := mkWireVote {
  wire_vote_Height : Z;
  wire_vote_Round : Z;
  wire_vote_Type : Z;
  wire_vote_ValidatorIndex : Z
}.

(** [p2p.Msg]: a payload that decodes as one message type, or as none. *)
Inductive Msg : Type :=
| MsgUndecodable
| MsgNewRoundStep (w : WireNewRoundStep)
| MsgProposal (w : WireProposal)
| MsgVote (w : WireVote).

(** [generalMsg.Decode(&msg)] into a [NewRoundStepMessage]: every pointer
    field of the decoded message points to a cell allocated by the
    decoder. *)
Definition Decode_NewRoundStep (m : Msg) : Alloc (option NewRoundStepMessage) :=
  match m with
  | MsgNewRoundStep w =>
      let* h := NewBigInt (wire_Height w) in
      let* r := NewBigInt (wire_Round w) in
      let* l := NewBigInt (wire_LastCommitRound w) in
      ret (Some (mkNewRoundStepMessage h r (wire_Step w)
                   (wire_SecondsSinceStartTime w) l))
  | _ => ret None
  end.

Definition Decode_Proposal (m : Msg) : Alloc (option types.Proposal) :=
  match m with
  | MsgProposal w =>
      let* h := NewBigInt (wire_prop_Height w) in
      let* r := NewBigInt (wire_prop_Round w) in
      let* p := NewBigInt (wire_prop_POLRound w) in
      ret (Some (mkProposal h r p (wire_prop_Block_Header_Hash w)))
  | _ => ret None
  end.

Definition Decode_Vote (m : Msg) : Alloc (option Vote) :=
  match m with
  | MsgVote w =>
      let* h := NewBigInt (wire_vote_Height w) in
      let* r := NewBigInt (wire_vote_Round w) in
      let* i := NewBigInt (wire_vote_ValidatorIndex w) in
      ret (Some (mkVote h r (wire_vote_Type w) i))
  | _ => ret None
  end.

(** ** Reactor and peer state *)

(** [PeerState]: the mutex (true when held) and the mirror. *)
Record PeerState : Type := mkPeerState {
  mtx : bool;
  PRS : PeerRoundState
}.

(** A [*p2p.Peer]: its identifier and what
    the type assertion on [src.Get(p2p.PeerStateKey)] finds. *)
Record Peer : Type := mkPeer {
  peer_ID : N;
  peer_State : option PeerState
}.

(** An entry of [conS.peerMsgQueue]. *)
Inductive queued : Type :=
| QueuedProposal (p : types.Proposal)
| QueuedVote (v : Vote).

Record msgInfo : Type := mkMsgInfo {
  info_Msg : queued;
  info_PeerID : N
}.

(** [ConsensusReactor]: the [running] flag and the input queue of the
    consensus state, the channel [conS.peerMsgQueue]: the entries that
    wait in it, oldest first, and its capacity. *)
Record ConsensusReactor : Type := mkConsensusReactor {
  running : bool;
  peerMsgQueue : list msgInfo;
  (** Modelled from the spec: the channel is made outside these
      sources; it is "the state machine's input queue (bounded -- may
      block)", of a capacity that is fixed where it is made. *)
  peerMsgQueue_cap : nat
}.

(** What a handler works on: the reactor and the peer that the message
    came from. *)
Record World : Type := mkWorld {
  conR : ConsensusReactor;
  src : Peer
}.

(** A handler returns, or it does not and waits: in [ps.mtx.Lock()],
    for ever, on a mutex that nobody will release, or in a send on a
    channel that is full, for as long as nothing is taken out of it. *)
Inductive outcome (A : Type) : Type :=
| Returns (a : A)
| Blocked.
Arguments Returns {A} a.
Arguments Blocked {A}.

(** ** CompareHRS *)

(** Modelled from the spec: [CompareHRS], which is defined outside these
    sources.  "A lexicographic comparator (H, R, S) defines monotonic
    progress": -1, 0 or 1 as the first triple is below, equal to or above
    the second. *)
Definition CompareHRS (h1 r1 : BigInt) (s1 : RoundStepType)
                      (h2 r2 : BigInt) (s2 : RoundStepType) : Z :=
  if value h1 <? value h2 then -1
  else if value h2 <? value h1 then 1
  else if value r1 <? value r2 then -1
  else if value r2 <? value r1 then 1
  else if step_rank s1 <? step_rank s2 then -1
  else if step_rank s2 <? step_rank s1 then 1
  else 0.

(** ** ReceiveNewRoundStep *)

(** [time.Second], in nanoseconds. *)
Definition Second : Z := 1000000000.

(** [time.Now().Add(-1 * time.Duration(msg.SecondsSinceStartTime) * time.Second)],
    times in nanoseconds. *)
Definition startTime_of (now : Z) (seconds : Z) : Z :=
  now + GoInt.mul64 (GoInt.mul64 (-1) (GoInt.to_int64 seconds)) Second.

(** The assignments under [if !psHeight.Equals(msg.Height) ||
    !psRound.Equals(msg.Round)]. *)
Definition clear_round_fields (minus1 : BigInt) (prs : PeerRoundState)
  : PeerRoundState :=
  {| Height := Height prs; Round := Round prs; Step := Step prs;
     StartTime := StartTime prs;
     Proposal := false;
     ProposalBlockHeader := Hash_zero;
     ProposalPOLRound := minus1;
     ProposalPOL := None;
     Prevotes := None;
     Precommits := None;
     LastCommitRound := LastCommitRound prs; LastCommit := LastCommit prs;
     CatchupCommitRound := CatchupCommitRound prs;
     CatchupCommit := CatchupCommit prs |}.

Definition set_HRS_StartTime (h r : BigInt) (s : RoundStepType) (t : Z)
                             (prs : PeerRoundState) : PeerRoundState :=
  {| Height := h; Round := r; Step := s; StartTime := t;
     Proposal := Proposal prs;
     ProposalBlockHeader := ProposalBlockHeader prs;
     ProposalPOLRound := ProposalPOLRound prs;
     ProposalPOL := ProposalPOL prs;
     Prevotes := Prevotes prs;
     Precommits := Precommits prs;
     LastCommitRound := LastCommitRound prs; LastCommit := LastCommit prs;
     CatchupCommitRound := CatchupCommitRound prs;
     CatchupCommit := CatchupCommit prs |}.

Definition set_Precommits (b : option BitArray) (prs : PeerRoundState)
  : PeerRoundState :=
  {| Height := Height prs; Round := Round prs; Step := Step prs;
     StartTime := StartTime prs;
     Proposal := Proposal prs;
     ProposalBlockHeader := ProposalBlockHeader prs;
     ProposalPOLRound := ProposalPOLRound prs;
     ProposalPOL := ProposalPOL prs;
     Prevotes := Prevotes prs;
     Precommits := b;
     LastCommitRound := LastCommitRound prs; LastCommit := LastCommit prs;
     CatchupCommitRound := CatchupCommitRound prs;
     CatchupCommit := CatchupCommit prs |}.

Definition set_LastCommit (r : BigInt) (b : option BitArray)
                          (prs : PeerRoundState) : PeerRoundState :=
  {| Height := Height prs; Round := Round prs; Step := Step prs;
     StartTime := StartTime prs;
     Proposal := Proposal prs;
     ProposalBlockHeader := ProposalBlockHeader prs;
     ProposalPOLRound := ProposalPOLRound prs;
     ProposalPOL := ProposalPOL prs;
     Prevotes := Prevotes prs;
     Precommits := Precommits prs;
     LastCommitRound := r; LastCommit := b;
     CatchupCommitRound := CatchupCommitRound prs;
     CatchupCommit := CatchupCommit prs |}.

Definition set_CatchupCommit (r : BigInt) (b : option BitArray)
                             (prs : PeerRoundState) : PeerRoundState :=
  {| Height := Height prs; Round := Round prs; Step := Step prs;
     StartTime := StartTime prs;
     Proposal := Proposal prs;
     ProposalBlockHeader := ProposalBlockHeader prs;
     ProposalPOLRound := ProposalPOLRound prs;
     ProposalPOL := ProposalPOL prs;
     Prevotes := Prevotes prs;
     Precommits := Precommits prs;
     LastCommitRound := LastCommitRound prs; LastCommit := LastCommit prs;
     CatchupCommitRound := r;
     CatchupCommit := b |}.

(** The body of [ReceiveNewRoundStep] between [ps.mtx.Lock()] and the
    deferred [ps.mtx.Unlock()], statement by statement.  [==] and [!=] on
    [*cmn.BigInt] are [ptr_eq]; [.Equals] is [Equals]. *)
Definition applyNewRoundStep (now : Z) (msg : NewRoundStepMessage)
                             (prs : PeerRoundState) : Alloc PeerRoundState :=
  (* Ignore duplicates or decreases *)
  if CompareHRS (msg_Height msg) (msg_Round msg) (msg_Step msg)
                (Height prs) (Round prs) (Step prs) <=? 0
  then ret prs
  else
    (* Just remember these values. *)
    let psHeight := Height prs in
    let psRound := Round prs in
    let psCatchupCommitRound := CatchupCommitRound prs in
    let psCatchupCommit := CatchupCommit prs in
    let startTime := startTime_of now (msg_SecondsSinceStartTime msg) in
    let prs := set_HRS_StartTime (msg_Height msg) (msg_Round msg)
                                 (msg_Step msg) startTime prs in
    let* prs := (if negb (Equals psHeight (msg_Height msg))
               || negb (Equals psRound (msg_Round msg))
            then let* minus1 := NewBigInt (-1) in ret (clear_round_fields minus1 prs)
            else ret prs) in
    let prs :=
      if ptr_eq psHeight (msg_Height msg)
         && negb (ptr_eq psRound (msg_Round msg))
         && ptr_eq (msg_Round msg) psCatchupCommitRound
      then set_Precommits psCatchupCommit prs
      else prs in
    if negb (ptr_eq psHeight (msg_Height msg))
    then
      (* Shift Precommits to LastCommit. *)
      let* next := Add psHeight 1 in
      let prs :=
        if Equals next (msg_Height msg)
           && Equals psRound (msg_LastCommitRound msg)
        then set_LastCommit (msg_LastCommitRound msg) (Precommits prs) prs
        else set_LastCommit (msg_LastCommitRound msg) None prs in
      let* minus1 := NewBigInt (-1) in
      ret (set_CatchupCommit minus1 None prs)
    else ret prs.

Definition with_State (p : Peer) (ps : PeerState) : Peer :=
  mkPeer (peer_ID p) (Some ps).

(** [ReceiveNewRoundStep(generalMsg, src)]. *)
Definition ReceiveNewRoundStep (now : Z) (generalMsg : Msg) (w : World)
  : Alloc (outcome World) :=
  if negb (running (conR w)) then ret (Returns w)
  else
    let* decoded := Decode_NewRoundStep generalMsg in
    match decoded with
    | None => ret (Returns w)
    | Some msg =>
        match peer_State (src w) with
        | None => ret (Returns w)
        | Some ps =>
            if mtx ps then ret Blocked
            else
              let* prs := applyNewRoundStep now msg (PRS ps) in
              ret (Returns (mkWorld (conR w)
                              (with_State (src w) (mkPeerState false prs))))
        end
    end.

(** ** SetHasProposal and ReceiveNewProposal *)

Definition record_proposal (proposal : types.Proposal) (prs : PeerRoundState)
  : PeerRoundState :=
  {| Height := Height prs; Round := Round prs; Step := Step prs;
     StartTime := StartTime prs;
     Proposal := true;
     ProposalBlockHeader := prop_Block_Header_Hash proposal;
     ProposalPOLRound := prop_POLRound proposal;
     ProposalPOL := None;
     Prevotes := Prevotes prs;
     Precommits := Precommits prs;
     LastCommitRound := LastCommitRound prs; LastCommit := LastCommit prs;
     CatchupCommitRound := CatchupCommitRound prs;
     CatchupCommit := CatchupCommit prs |}.

(** The body of [SetHasProposal] under the mutex. *)
Definition setHasProposal (proposal : types.Proposal) (prs : PeerRoundState)
  : PeerRoundState :=
  if negb (Equals (Height prs) (prop_Height proposal))
     || negb (Equals (Round prs) (prop_Round proposal))
  then prs
  else if Proposal prs then prs
  else record_proposal proposal prs.

(** [ps.SetHasProposal(proposal)]: lock, body, deferred unlock. *)
Definition SetHasProposal (proposal : types.Proposal) (ps : PeerState)
  : outcome PeerState :=
  if mtx ps then Blocked
  else Returns (mkPeerState false (setHasProposal proposal (PRS ps))).

(** [conR.conS.peerMsgQueue <- i], the send on the channel: the entry
    goes to the end of the queue when the channel has room, and the
    sender waits when the channel is full (the receiver, a routine of
    the consensus state, is outside these sources; for a channel of
    capacity 0 the sender waits for it in any case). *)
Definition enqueue (i : msgInfo) (c : ConsensusReactor)
  : outcome ConsensusReactor :=
  if (length (peerMsgQueue c) <? peerMsgQueue_cap c)%nat
  then Returns (mkConsensusReactor (running c) (peerMsgQueue c ++ [i])
                  (peerMsgQueue_cap c))
  else Blocked.

(** [ReceiveNewProposal(generalMsg, src)]: [SetHasProposal] first, then
    the send. *)
Definition ReceiveNewProposal (generalMsg : Msg) (w : World)
  : Alloc (outcome World) :=
  if negb (running (conR w)) then ret (Returns w)
  else
    let* decoded := Decode_Proposal generalMsg in
    match decoded with
    | None => ret (Returns w)
    | Some proposal =>
        match peer_State (src w) with
        | None => ret (Returns w)
        | Some ps =>
            match SetHasProposal proposal ps with
            | Blocked => ret Blocked
            | Returns ps' =>
                match enqueue (mkMsgInfo (QueuedProposal proposal)
                                 (peer_ID (src w))) (conR w) with
                | Blocked => ret Blocked
                | Returns c' =>
                    ret (Returns (mkWorld c' (with_State (src w) ps')))
                end
            end
        end
    end.

(** ** ReceiveNewVote *)

(** [ReceiveNewVote(generalMsg, src)], the "dummy handler to handle new
    vote": after [ps.mtx.Lock()] it returns; the [defer ps.mtx.Unlock()]
    that follows the [return] is never reached. *)
Definition ReceiveNewVote (generalMsg : Msg) (w : World)
  : Alloc (outcome World) :=
  if negb (running (conR w)) then ret (Returns w)
  else
    let* decoded := Decode_Vote generalMsg in
    match decoded with
    | None => ret (Returns w)
    | Some _ =>
        match peer_State (src w) with
        | None => ret (Returns w)
        | Some ps =>
            if mtx ps then ret Blocked
            else ret (Returns (mkWorld (conR w)
                                 (with_State (src w)
                                    (mkPeerState true (PRS ps)))))
        end
    end.

End consensus.

(* ===================================================================== *)
(** * types/proposal.go *)
(* ===================================================================== *)

Module proposal.

(** Modelled from the spec: [BlockID], declared outside these sources.
    "A pair (hash, parts-header); zero sentinel means none". *)
Record BlockID : Type := mkBlockID {
  bid_Hash : cmn.Hash;
  bid_PartsHeader : cmn.Hash
}.

Definition BlockID_zero : BlockID := mkBlockID cmn.Hash_zero cmn.Hash_zero.

(** [type Proposal struct]: [Height] and [Timestamp] are [uint64],
    [Round] and [POLRound] are [uint32]. *)
Record Proposal : Type := mkProposal {
  Height : Z;
  Round : Z;
  POLRound : Z;
  Timestamp : Z;
  POLBlockID : BlockID;
  Signature : list Z
}.

(** The values a [Proposal] can hold: each field within its Go type. *)
Definition well_typed (p : Proposal) : Prop :=
  GoInt.is_uint64 (Height p) /\ GoInt.is_uint32 (Round p) /\
  GoInt.is_uint32 (POLRound p) /\ GoInt.is_uint64 (Timestamp p).

(** [NewProposal(height, round, polRound, polBlockID)];
    [now_unix] is what [time.Now().Unix()] returns. *)
Definition NewProposal (now_unix : Z) (height round polRound : Z)
                       (polBlockID : BlockID) : Proposal :=
  {| Height := height;
     Round := round;
     Timestamp := GoInt.to_uint64 now_unix;
     POLRound := polRound;
     POLBlockID := polBlockID;
     Signature := [] |}.

End proposal.

(* ===================================================================== *)
(** * The evidence reactor *)
(* ===================================================================== *)

Module evidence.

(** Modelled from the spec: [types.Evidence], "opaque to this subsystem
    except for its accessors": [Height()] is a [uint64], [Time()] a time
    in nanoseconds; [ev_Body] stands for the rest. *)
Record Evidence : Type := mkEvidence {
  ev_Height : Z;
  ev_Time : Z;
  ev_Body : N
}.

(** Modelled from the spec: the errors [AddEvidence] can return,
    "ErrEvidenceInvalid, a permanent, peer-punishable error", or an
    error of any other type. *)
Inductive error : Type :=
| ErrEvidenceInvalid (reason : N)
| ErrOther (code : N).

(** Modelled from the spec: [ConsensusParams.Evidence] with
    [MaxAgeNumBlocks] and [MaxAgeDuration].  [MaxAgeNumBlocks] is
    compared with an [int64]; [MaxAgeDuration] is the integer that the
    reactor converts with [time.Duration(...)]. *)
Record EvidenceParams : Type := mkEvidenceParams {
  MaxAgeNumBlocks : Z;
  MaxAgeDuration : Z
}.

(** Modelled from the spec: [evpool.State()], the evidence parameters
    and [LastBlockTime] (nanoseconds). *)
Record State : Type := mkState {
  ConsensusParams_Evidence : EvidenceParams;
  LastBlockTime : Z
}.

(** A [p2p.Peer]: its identifier and the [PeerState] found under
    [types.PeerStateKey], given by what its [GetHeight()] returns
    (a [uint64]); [None] when the type assertion fails. *)
Record Peer : Type := mkPeer {
  peer_ID : N;
  peer_GetHeight : option Z
}.

Definition Millisecond : Z := 1000000.

(** [t.Sub(u)] of package [time]: the difference as a [Duration],
    saturating at the largest and smallest [int64]. *)
Definition Time_Sub (t u : Z) : Z :=
  if GoInt.MaxInt64 <? t - u then GoInt.MaxInt64
  else if t - u <? GoInt.MinInt64 then GoInt.MinInt64
  else t - u.

(** [checkSendEvidenceMessage(peer, ev)]; [st] is [evR.evpool.State()].
    A nil slice is the empty list. *)
Definition checkSendEvidenceMessage (st : State) (peer : Peer) (ev : Evidence)
  : list Evidence * bool :=
  (* make sure the peer is up to date *)
  let evHeight := ev_Height ev in
  match peer_GetHeight peer with
  | None => ([], true)
  | Some peerHeight =>
      let params := ConsensusParams_Evidence st in
      let ageDuration := Time_Sub (LastBlockTime st) (ev_Time ev) in
      let ageNumBlocks :=
        GoInt.sub64 (GoInt.to_int64 peerHeight) (GoInt.to_int64 evHeight) in
      if peerHeight <? evHeight then
        (* peer is behind. sleep while he catches up *)
        ([], true)
      else if (MaxAgeNumBlocks params <? ageNumBlocks)
              || (GoInt.mul64 (GoInt.to_int64 (MaxAgeDuration params))
                    Millisecond <? ageDuration) then
        (* evidence is too old, skip *)
        ([], false)
      else
        (* send evidence *)
        ([ev], false)
  end.

Section Receive.

(** The evidence pool and the protobuf decoding are outside these
    sources: the pool is any state with an [AddEvidence] operation,
    and the decoding steps are any functions of these types. *)
Context {Pool ProtoEvidence : Type}.
Variable AddEvidence : Pool -> Evidence -> Pool * option error.
Variable Unmarshal : list Z -> option (list ProtoEvidence).
Variable EvidenceFromProto : ProtoEvidence -> option Evidence.
Variable ValidateBasic : Evidence -> bool.

(** The reactor's surroundings: the pool, and the peers that
    [Switch.StopPeerForError] was called for, oldest first. *)
Record Reactor : Type := mkReactor {
  evpool : Pool;
  stopped : list N
}.

Definition StopPeerForError (src : Peer) (r : Reactor) : Reactor :=
  mkReactor (evpool r) (stopped r ++ [peer_ID src]).

(** The second loop of [decodeMsg]: [EvidenceFromProto] on every
    element, the first error returned. *)
Fixpoint fromProto_all (l : list ProtoEvidence) : option (list Evidence) :=
  match l with
  | [] => Some []
  | p :: rest =>
      match EvidenceFromProto p with
      | None => None
      | Some ev =>
          match fromProto_all rest with
          | None => None
          | Some evs => Some (ev :: evs)
          end
      end
  end.

(** [decodeMsg(bz)]: [None] stands for a non-nil [err]. *)
Definition decodeMsg (bz : list Z) : option (list Evidence) :=
  match Unmarshal bz with
  | None => None
  | Some lm =>
      match fromProto_all lm with
      | None => None
      | Some evis => if forallb ValidateBasic evis then Some evis else None
      end
  end.

(** The [for _, ev := range evis] loop of [Receive]. *)
Fixpoint Receive_range (src : Peer) (evis : list Evidence) (r : Reactor)
  : Reactor :=
  match evis with
  | [] => r
  | ev :: rest =>
      let '(pool', err) := AddEvidence (evpool r) ev in
      let r := mkReactor pool' (stopped r) in
      match err with
      | Some (ErrEvidenceInvalid _) =>
          (* punish peer *)
          StopPeerForError src r
      | None => Receive_range src rest r
      | Some (ErrOther _) =>
          (* continue to the next piece of evidence *)
          Receive_range src rest r
      end
  end.

(** [Receive(chID, src, msgBytes)]. *)
Definition Receive (chID : Z) (src : Peer) (msgBytes : list Z) (r : Reactor)
  : Reactor :=
  match decodeMsg msgBytes with
  | None => StopPeerForError src r
  | Some evis => Receive_range src evis r
  end.

(** What [AddEvidence] answers for each item of [evis] when they are
    all added in turn, and the pool after that. *)
Fixpoint add_all (evis : list Evidence) (pool : Pool)
  : list (option error) * Pool :=
  match evis with
  | [] => ([], pool)
  | ev :: rest =>
      let '(pool', err) := AddEvidence pool ev in
      let '(errs, pool'') := add_all rest pool' in
      (err :: errs, pool'')
  end.

Definition is_invalid (e : option error) : bool :=
  match e with
  | Some (ErrEvidenceInvalid _) => true
  | _ => false
  end.

End Receive.

Arguments Reactor : clear implicits.
Arguments mkReactor {Pool} _ _.
Arguments evpool {Pool} _.
Arguments stopped {Pool} _.

End evidence.

(* ===================================================================== *)
(** * github.com/hashicorp/golang-lru: the cache used by the header chain *)
(* ===================================================================== *)

Module lru.

(** A cache of at most [size] entries keyed by hash, the most recently
    used entry first. *)
Record Cache (V : Type) : Type := mkCache {
  size : nat;
  items : list (cmn.Hash * V)
}.
Arguments mkCache {V} _ _.
Arguments size {V} _.
Arguments items {V} _.

Definition New {V} (size : nat) : Cache V := mkCache size [].

Fixpoint find {V} (k : cmn.Hash) (l : list (cmn.Hash * V)) : option V :=
  match l with
  | [] => None
  | (k', v) :: rest => if N.eqb k k' then Some v else find k rest
  end.

Fixpoint remove {V} (k : cmn.Hash) (l : list (cmn.Hash * V))
  : list (cmn.Hash * V) :=
  match l with
  | [] => []
  | (k', v) :: rest => if N.eqb k k' then remove k rest else (k', v) :: remove k rest
  end.

(** [c.Get(key)]: a hit moves the entry to the front. *)
Definition Get {V} (k : cmn.Hash) (c : Cache V) : option V * Cache V :=
  match find k (items c) with
  | Some v => (Some v, mkCache (size c) ((k, v) :: remove k (items c)))
  | None => (None, c)
  end.

(** [c.Add(key, value)]: the entry goes to the front; when the cache
    grows beyond its size the oldest entry is evicted. *)
Definition Add {V} (k : cmn.Hash) (v : V) (c : Cache V) : Cache V :=
  let l := (k, v) :: remove k (items c) in
  mkCache (size c) (if (size c <? length l)%nat then removelast l else l).

(** [c.Purge()]. *)
Definition Purge {V} (c : Cache V) : Cache V := mkCache (size c) [].

End lru.

(* ===================================================================== *)
(** * blockchain/headerchain.go *)
(* ===================================================================== *)

Module blockchain.

Import cmn.

Definition headerCacheLimit : nat := 512.
Definition heightCacheLimit : nat := 2048.

(** Modelled from the spec: [types.Header], "{height, last_commit_hash,
    ...}; only height and hash are used here"; [hdr_Rest] stands for the
    other fields.  Heights are [uint64]; the header chain only ever
    decrements a height that is above another one, so no operation on
    them can wrap. *)
Record Header : Type := mkHeader {
  Height : N;
  LastCommitHash : Hash;
  hdr_Rest : N
}.

(** ** The header store *)

(** Modelled from the spec: the persisted state behind [rawdb], which is
    outside these sources.  "canonical_hash[height] -> hash,
    header[hash,height] -> Header, header_height[hash] -> height,
    head_header_hash -> hash"; [other_data] stands for every other
    key. *)
Record Database : Type := mkDatabase {
  canonical_hash : gmap N Hash;
  header : gmap (Hash * N) Header;
  header_height : gmap Hash N;
  head_header_hash : option Hash;
  other_data : gmap N N
}.

Inductive Key : Type :=
| canonicalKey (height : N)
| headerKey (hash : Hash) (height : N)
| headerHeightKey (hash : Hash)
| headHeaderKey
| otherKey (k : N).

(** [db.Delete(key)]. *)
Definition db_Delete (k : Key) (db : Database) : Database :=
  match k with
  | canonicalKey n =>
      mkDatabase (delete n (canonical_hash db)) (header db)
                 (header_height db) (head_header_hash db) (other_data db)
  | headerKey h n =>
      mkDatabase (canonical_hash db) (delete (h, n) (header db))
                 (header_height db) (head_header_hash db) (other_data db)
  | headerHeightKey h =>
      mkDatabase (canonical_hash db) (header db)
                 (delete h (header_height db)) (head_header_hash db)
                 (other_data db)
  | headHeaderKey =>
      mkDatabase (canonical_hash db) (header db) (header_height db) None
                 (other_data db)
  | otherKey k =>
      mkDatabase (canonical_hash db) (header db) (header_height db)
                 (head_header_hash db) (delete k (other_data db))
  end.

(** A batch created by [chainDb.NewBatch()] and used as a
    [rawdb.DatabaseDeleter]: the keys to delete, in the order of the
    calls. *)
Definition Batch : Type := list Key.

(** [batch.Write()]. *)
Definition batch_Write (batch : Batch) (db : Database) : Database :=
  fold_left (fun db k => db_Delete k db) batch db.

(** Modelled from the spec: [rawdb.ReadHeader], the entry
    [header[hash,height]]. *)
Definition ReadHeader (db : Database) (hash : Hash) (height : N)
  : option Header :=
  header db !! (hash, height).

(** Modelled from the spec: [rawdb.DeleteHeader], which removes what the
    store keeps for the header: [header[hash,height]] and
    [header_height[hash]]. *)
Definition DeleteHeader (hash : Hash) (height : N) : Batch :=
  [headerKey hash height; headerHeightKey hash].

(** Modelled from the spec: [rawdb.DeleteCanonicalHash], which removes
    [canonical_hash[height]]. *)
Definition DeleteCanonicalHash (height : N) : Batch := [canonicalKey height].

(** Modelled from the spec: [rawdb.WriteHeadHeaderHash], which sets
    [head_header_hash]. *)
Definition WriteHeadHeaderHash (db : Database) (hash : Hash) : Database :=
  mkDatabase (canonical_hash db) (header db) (header_height db) (Some hash)
             (other_data db).

(** [DeleteCallback]: what a callback does with the deleter it is handed
    is the keys it deletes through it. *)
Definition DeleteCallback : Type := Hash -> N -> Batch.

(** ** The header chain *)

(** [HeaderChain]: [currentHeader] is the pointer kept in the
    [atomic.Value] ([None] is nil), [genesisHeader] may be nil as
    well. *)
Record HeaderChain : Type := mkHeaderChain {
  chainDb : Database;
  genesisHeader : option Header;
  currentHeader : option Header;
  currentHeaderHash : Hash;
  headerCache : lru.Cache Header;
  heightCache : lru.Cache N
}.

Definition CurrentHeader (hc : HeaderChain) : option Header := currentHeader hc.

Definition set_headerCache (c : lru.Cache Header) (hc : HeaderChain)
  : HeaderChain :=
  mkHeaderChain (chainDb hc) (genesisHeader hc) (currentHeader hc)
                (currentHeaderHash hc) c (heightCache hc).

Definition currentHeader_Store (h : option Header) (hc : HeaderChain)
  : HeaderChain :=
  mkHeaderChain (chainDb hc) (genesisHeader hc) h
                (currentHeaderHash hc) (headerCache hc) (heightCache hc).

Definition set_chainDb (db : Database) (hc : HeaderChain) : HeaderChain :=
  mkHeaderChain db (genesisHeader hc) (currentHeader hc)
                (currentHeaderHash hc) (headerCache hc) (heightCache hc).

Definition set_currentHeaderHash (h : Hash) (hc : HeaderChain) : HeaderChain :=
  mkHeaderChain (chainDb hc) (genesisHeader hc) (currentHeader hc)
                h (headerCache hc) (heightCache hc).

Definition purge_caches (hc : HeaderChain) : HeaderChain :=
  mkHeaderChain (chainDb hc) (genesisHeader hc) (currentHeader hc)
                (currentHeaderHash hc)
                (lru.Purge (headerCache hc)) (lru.Purge (heightCache hc)).

(** [hc.GetHeader(hash, height)]. *)
Definition GetHeader (hash : Hash) (height : N) (hc : HeaderChain)
  : option Header * HeaderChain :=
  (* Short circuit if the header's already in the cache, retrieve otherwise *)
  match lru.Get hash (headerCache hc) with
  | (Some header, c) => (Some header, set_headerCache c hc)
  | (None, _) =>
      match ReadHeader (chainDb hc) hash height with
      | None => (None, hc)
      | Some header =>
          (* Cache the found header for next time and return *)
          (Some header, set_headerCache (lru.Add hash header (headerCache hc)) hc)
      end
  end.

(** How a call of [SetHead] ends: it returns, it reaches
    [hc.CurrentHeader().Hash()] with a nil header (what [Hash] does then
    is not fixed by these sources), or the rewind loop is still running
    when the fuel of the model is used up. *)
Inductive result (A : Type) : Type :=
| Done (a : A)
| HashOfNil
| OutOfFuel.
Arguments Done {A} a.
Arguments HashOfNil {A}.
Arguments OutOfFuel {A}.

(** The second loop of [SetHead], [for i := height; i > head; i--],
    with the number of iterations left. *)
Fixpoint rollback (n : nat) (i : N) : Batch :=
  match n with
  | O => []
  | S n' => DeleteCanonicalHash i ++ rollback n' (i - 1)%N
  end.

Definition canonical_rollback (height head : N) : Batch :=
  rollback (N.to_nat (height - head)) height.

Section WithHash.

(** [hdr.Hash()] on a header that is not nil. *)
Variable Header_Hash : Header -> Hash.

(** The first loop of [SetHead]:
    [for hdr := hc.CurrentHeader(); hdr != nil && hdr.Height > head;
         hdr = hc.CurrentHeader()]. *)
Fixpoint rewind (fuel : nat) (head : N) (delFn : option DeleteCallback)
                (batch : Batch) (hc : HeaderChain)
  : option (Batch * HeaderChain) :=
  match fuel with
  | O => None
  | S fuel' =>
      match CurrentHeader hc with
      | None => Some (batch, hc)
      | Some hdr =>
          if (head <? Height hdr)%N then
            let hash := Header_Hash hdr in
            let height := Height hdr in
            let batch :=
              match delFn with
              | Some f => batch ++ f hash height
              | None => batch
              end in
            let batch := batch ++ DeleteHeader hash height in
            let '(prev, hc) :=
              GetHeader (LastCommitHash hdr) (Height hdr - 1)%N hc in
            rewind fuel' head delFn batch (currentHeader_Store prev hc)
          else Some (batch, hc)
      end
  end.

(** [hc.SetHead(head, delFn)]. *)
Definition SetHead (fuel : nat) (head : N) (delFn : option DeleteCallback)
                   (hc : HeaderChain) : result HeaderChain :=
  let height :=
    match CurrentHeader hc with
    | Some hdr => Height hdr
    | None => 0%N
    end in
  let batch : Batch := [] in
  match rewind fuel head delFn batch hc with
  | None => OutOfFuel
  | Some (batch, hc) =>
      (* Roll back the canonical chain numbering *)
      let batch := batch ++ canonical_rollback height head in
      let hc := set_chainDb (batch_Write batch (chainDb hc)) hc in
      (* Clear out any stale content from the caches *)
      let hc := purge_caches hc in
      let hc :=
        match CurrentHeader hc with
        | None => currentHeader_Store (genesisHeader hc) hc
        | Some _ => hc
        end in
      match CurrentHeader hc with
      | None => HashOfNil
      | Some cur =>
          let hc := set_currentHeaderHash (Header_Hash cur) hc in
          Done (set_chainDb
                  (WriteHeadHeaderHash (chainDb hc) (currentHeaderHash hc))
                  hc)
      end
  end.

End WithHash.

End blockchain.


(* ===================================================================== *)
(** * The evidence reactor: encoding and the broadcast routine *)
(* ===================================================================== *)

Module evidence_gossip.

Import evidence.

Section Codec.

(** The protobuf conversion and encoding are outside these sources:
    any functions of these types. *)
Context {ProtoEvidence : Type}.
Variable EvidenceToProto : Evidence -> option ProtoEvidence.
Variable Marshal : list ProtoEvidence -> option (list Z).

(** The loop of [encodeMsg]: [EvidenceToProto] on every element, the
    first error returned. *)
Fixpoint toProto_all (evis : list Evidence) : option (list ProtoEvidence) :=
  match evis with
  | [] => Some []
  | ev :: rest =>
      match EvidenceToProto ev with
      | None => None
      | Some p =>
          match toProto_all rest with
          | None => None
          | Some ps => Some (p :: ps)
          end
      end
  end.

(** [encodeMsg(evis)]: [None] stands for a non-nil [err]. *)
Definition encodeMsg (evis : list Evidence) : option (list Z) :=
  match toProto_all evis with
  | None => None
  | Some evi => Marshal evi
  end.

(** [peer.Send(EvidenceChannel, msgBytes)]: whether the message was
    taken. *)
Variable Send : list Z -> bool.

(** How the routine goes on after it has looked at an element of the
    list: it panics on an encoding error, it sleeps
    [peerCatchupSleepIntervalMS] and looks at the same element again,
    or it waits for the next element (or the restart of the scan).
    [sent] is the message handed to [Send], if any. *)
Inductive step : Type :=
| EncodePanic
| SleepAndRetry (sent : option (list Z))
| WaitForNext (sent : option (list Z)).

(** The body of the loop of [broadcastEvidenceRoutine] from
    [ev := next.Value.(types.Evidence)] to [if retry]. *)
Definition broadcast_evidence (st : State) (peer : Peer) (ev : Evidence)
  : step :=
  let '(evis, retry) := checkSendEvidenceMessage st peer ev in
  match evis with
  | [] => if retry then SleepAndRetry None else WaitForNext None
  | _ :: _ =>
      match encodeMsg evis with
      | None => EncodePanic
      | Some msgBytes =>
          let success := Send msgBytes in
          let retry := negb success in
          if retry then SleepAndRetry (Some msgBytes)
          else WaitForNext (Some msgBytes)
      end
  end.

End Codec.

End evidence_gossip.

(* ===================================================================== *)
(** * blockchain/headerchain.go: the other operations of the header chain *)
(* ===================================================================== *)

Module headerchain.

Import cmn blockchain.

(** Modelled from the spec: [rawdb.ReadCanonicalHash], the entry
    [canonical_hash[height]], the zero hash when there is none. *)
Definition ReadCanonicalHash (db : Database) (height : N) : Hash :=
  match canonical_hash db !! height with
  | Some h => h
  | None => Hash_zero
  end.

(** Modelled from the spec: [rawdb.ReadHeaderHeight], the entry
    [header_height[hash]], nil when there is none. *)
Definition ReadHeaderHeight (db : Database) (hash : Hash) : option N :=
  header_height db !! hash.

Definition set_heightCache (c : lru.Cache N) (hc : HeaderChain) : HeaderChain :=
  mkHeaderChain (chainDb hc) (genesisHeader hc) (currentHeader hc)
                (currentHeaderHash hc) (headerCache hc) c.

Definition set_genesisHeader (g : option Header) (hc : HeaderChain)
  : HeaderChain :=
  mkHeaderChain (chainDb hc) g (currentHeader hc)
                (currentHeaderHash hc) (headerCache hc) (heightCache hc).

(** [hc.GetHeaderByHeight(height)]. *)
Definition GetHeaderByHeight (height : N) (hc : HeaderChain)
  : option Header * HeaderChain :=
  let hash := ReadCanonicalHash (chainDb hc) height in
  if N.eqb hash Hash_zero then (None, hc)
  else GetHeader hash height hc.

(** [hc.GetBlockHeight(hash)]. *)
Definition GetBlockHeight (hash : Hash) (hc : HeaderChain)
  : option N * HeaderChain :=
  match lru.Get hash (heightCache hc) with
  | (Some cached, c) => (Some cached, set_heightCache c hc)
  | (None, _) =>
      match ReadHeaderHeight (chainDb hc) hash with
      | Some height =>
          (Some height, set_heightCache (lru.Add hash height (heightCache hc)) hc)
      | None => (None, hc)
      end
  end.

(** [hc.GetHeaderByHash(hash)]. *)
Definition GetHeaderByHash (hash : Hash) (hc : HeaderChain)
  : option Header * HeaderChain :=
  match GetBlockHeight hash hc with
  | (None, hc) => (None, hc)
  | (Some height, hc) => GetHeader hash height hc
  end.

(** [hc.SetGenesis(head)]. *)
Definition SetGenesis (head : option Header) (hc : HeaderChain) : HeaderChain :=
  set_genesisHeader head hc.

(** What [NewHeaderChain] returns: the chain, or [ErrNoGenesis]. *)
Inductive created : Type :=
| Created (hc : HeaderChain)
| ErrNoGenesis.

Section WithHash.

(** [hdr.Hash()] on a header that is not nil. *)
Variable Header_Hash : Header -> Hash.

(** [hc.SetCurrentHeader(head)], for a [head] that is not nil. *)
Definition SetCurrentHeader (head : Header) (hc : HeaderChain) : HeaderChain :=
  let hc := set_chainDb (WriteHeadHeaderHash (chainDb hc) (Header_Hash head)) hc in
  let hc := currentHeader_Store (Some head) hc in
  set_currentHeaderHash (Header_Hash head) hc.

(** [NewHeaderChain(chainDb, config)]; [headBlockHash] is what
    [rawdb.ReadHeadBlockHash(chainDb)] returns, an entry that the
    spec's list of persisted state does not have. *)
Definition NewHeaderChain (chainDb : Database) (headBlockHash : Hash)
  : created :=
  let hc := mkHeaderChain chainDb None None Hash_zero
              (lru.New headerCacheLimit) (lru.New heightCacheLimit) in
  let '(genesis, hc) := GetHeaderByHeight 0%N hc in
  let hc := set_genesisHeader genesis hc in
  match genesis with
  | None => ErrNoGenesis
  | Some g =>
      let hc := currentHeader_Store (genesisHeader hc) hc in
      (* [cur] is what [hc.CurrentHeader()] returns from here on *)
      let '(cur, hc) :=
        if negb (N.eqb headBlockHash Hash_zero) then
          match GetHeaderByHash headBlockHash hc with
          | (Some chead, hc) => (chead, currentHeader_Store (Some chead) hc)
          | (None, hc) => (g, hc)
          end
        else (g, hc) in
      Created (set_currentHeaderHash (Header_Hash cur) hc)
  end.

End WithHash.

End headerchain.

(* ===================================================================== *)
(** * The consensus reactor: vote bit arrays and the data gossip routine *)
(* ===================================================================== *)

Module reactor.

Import cmn cstypes consensus.

(** ** getVoteBitArray *)

Section VoteTypes.

(** [types.VoteTypePrevote] and [types.VoteTypePrecommit], two
    constants of type [byte] declared outside these sources. *)
Variable VoteTypePrevote VoteTypePrecommit : Z.

(** Modelled from the spec: [types.IsVoteTypeValid], "type in
    {Prevote, Precommit}". *)
Definition IsVoteTypeValid (type_ : Z) : bool :=
  (type_ =? VoteTypePrevote) || (type_ =? VoteTypePrecommit).

(** A [switch type_] with the cases [types.VoteTypePrevote] and
    [types.VoteTypePrecommit], each returning: [Some r] when a case
    is taken and returns [r], [None] when the statement after the
    switch is reached. *)
Definition switch_type (type_ : Z) (prevote precommit : option BitArray)
  : option (option BitArray) :=
  if type_ =? VoteTypePrevote then Some prevote
  else if type_ =? VoteTypePrecommit then Some precommit
  else None.

(** [ps.getVoteBitArray(height, round, type_)]; the bit array
    returned is given by its content. *)
Definition getVoteBitArray (prs : PeerRoundState) (height round : BigInt)
                           (type_ : Z) : Alloc (option BitArray) :=
  if negb (IsVoteTypeValid type_) then ret None
  else if Equals (Height prs) height then
    match (if Equals (Round prs) round
           then switch_type type_ (Prevotes prs) (Precommits prs)
           else None) with
    | Some r => ret r
    | None =>
        match (if Equals (ProposalPOLRound prs) round
               then switch_type type_ (ProposalPOL prs) None
               else None) with
        | Some r => ret r
        | None => ret None
        end
    end
  else
    let* next := Add height 1 in
    if Equals (Height prs) next then
      match (if Equals (LastCommitRound prs) round
             then switch_type type_ None (LastCommit prs)
             else None) with
      | Some r => ret r
      | None => ret None
      end
    else ret None.

End VoteTypes.

(** ** gossipDataRoutine *)

(** Modelled from the spec: [cstypes.RoundState], the local round
    state, with what the routine reads of it: height, round, the
    proposal (nil when there is none), and
    [rs.Votes.Prevotes(round).BitArray()] as a function of the
    round. *)
Record RoundState : Type := mkRoundState {
  rs_Height : BigInt;
  rs_Round : BigInt;
  rs_Proposal : option types.Proposal;
  rs_Votes_Prevotes_BitArray : Z -> option BitArray
}.

(** A message handed to [p2p.Send]: a [ProposalMessage] or a
    [ProposalPOLMessage]. *)
Inductive sent : Type :=
| SentProposal (Proposal : types.Proposal)
| SentProposalPOL (Height ProposalPOLRound : BigInt)
                  (ProposalPOL : option BitArray).

(** How a turn of the loop ends: the routine returns, it panics, it
    sleeps [PeerGossipSleep] before the next turn, it goes to the next
    turn at once, or it waits for ever for the mutex of the peer
    state. *)
Inductive turn : Type :=
| Stopped
| Panicked
| Slept
| Continued
| BlockedOnMutex.

(** Modelled from the spec: [x.IsGreaterThanInt(y)], [x.IsLessThan(y)]
    and [x.IsGreaterThanOrEqualThanInt(y)] of [cmn.BigInt] ("0 <
    prs.height < rs.height", "pol_round >= 0"). *)
Definition IsGreaterThanInt (x : BigInt) (y : Z) : bool := y <? value x.
Definition IsLessThan (x y : BigInt) : bool := value x <? value y.
Definition IsGreaterThanOrEqualThanInt (x : BigInt) (y : Z) : bool :=
  y <=? value x.

(** Modelled from the spec: [x.Int32()], the integer as an [int32]. *)
Definition Int32 (x : BigInt) : Z := (value x + 2 ^ 31) mod 2 ^ 32 - 2 ^ 31.

(** [ps.GetRoundState()]: a copy of the mirror, taken under the
    mutex. *)
Definition GetRoundState (ps : PeerState) : outcome PeerRoundState :=
  if mtx ps then Blocked else Returns (PRS ps).

(** One turn of the [OUTER_LOOP] of [gossipDataRoutine]: how it ends,
    the messages handed to [p2p.Send] in their order (an error of
    [p2p.Send] is logged or dropped, and changes nothing), and the peer
    state afterwards.  [peer_IsAlive] is [peer.IsAlive], [rs] is what
    [conR.conS.GetRoundState()] returns. *)
Definition gossipData_turn (peer_IsAlive : bool) (c : ConsensusReactor)
                           (rs : RoundState) (ps : PeerState)
  : turn * list sent * PeerState :=
  (* Manage disconnects from self or peer. *)
  if negb peer_IsAlive || negb (running c) then (Stopped, [], ps)
  else
    match GetRoundState ps with
    | Blocked => (BlockedOnMutex, [], ps)
    | Returns prs =>
        (* If the peer is on a previous height, help catch up. *)
        if IsGreaterThanInt (Height prs) 0
           && IsLessThan (Height prs) (rs_Height rs)
        then (Panicked, [], ps)
        (* If height and round don't match, sleep. *)
        else if negb (Equals (rs_Height rs) (Height prs))
                || negb (Equals (rs_Round rs) (Round prs))
        then (Slept, [], ps)
        else
          match rs_Proposal rs with
          | Some proposal =>
              if negb (Proposal prs) then
                (* Proposal: share the proposal metadata with peer. *)
                let msgs := [SentProposal proposal] in
                match SetHasProposal proposal ps with
                | Blocked => (BlockedOnMutex, msgs, ps)
                | Returns ps' =>
                    (* ProposalPOL: lets peer know which POL votes we
                       have so far. *)
                    let msgs :=
                      if IsGreaterThanOrEqualThanInt
                           (types.prop_POLRound proposal) 0
                      then msgs ++
                           [SentProposalPOL (rs_Height rs)
                              (types.prop_POLRound proposal)
                              (rs_Votes_Prevotes_BitArray rs
                                 (Int32 (types.prop_POLRound proposal)))]
                      else msgs in
                    (Continued, msgs, ps')
                end
              else
                (* Nothing to do. Sleep. *)
                (Slept, [], ps)
          | None => (Slept, [], ps)
          end
    end.

End reactor.

(* ===================================================================== *)
(** * The values of the RLP round-trip test *)
(* ===================================================================== *)

Module rlp.

(** [type Simple struct { X uint32; Y uint32 }]. *)
Record Simple : Type := mkSimple {
  X : Z;
  Y : Z
}.

(** [(x *Simple).Equal(y *Simple)]; the nil pointer is [None]. *)
Definition Equal (x y : option Simple) : bool :=
  match x, y with
  | None, None => true
  | None, Some _ | Some _, None => false
  | Some x, Some y => (X x =? X y) && (Y x =? Y y)
  end.

(** [type SimpleSet struct { Set []*Simple }]. *)
Record SimpleSet : Type := mkSimpleSet {
  Set_ : list (option Simple)
}.

(** The loop of [(x *SimpleSet).Equal], entered with slices of the same
    length. *)
Fixpoint Equal_loop (xs ys : list (option Simple)) : bool :=
  match xs, ys with
  | x :: xs', y :: ys' =>
      if negb (Equal x y) then false else Equal_loop xs' ys'
  | _, _ => true
  end.

(** [(x *SimpleSet).Equal(y *SimpleSet)]. *)
Definition SimpleSet_Equal (x y : SimpleSet) : bool :=
  if negb (Nat.eqb (length (Set_ x)) (length (Set_ y))) then false
  else Equal_loop (Set_ x) (Set_ y).

End rlp.
(* ===================================================================== *)
(** * Vocabulary of the properties *)
(* ===================================================================== *)

Module props.

Import cmn cstypes consensus.

(** A height-round-step triple as integers, and the lexicographic order
    on such triples. *)
Definition HRS : Type := (Z * Z * Z)%type.

Definition hrs_le (a b : HRS) : Prop :=
  let '(h1, r1, s1) := a in
  let '(h2, r2, s2) := b in
  h1 < h2 \/ (h1 = h2 /\ (r1 < r2 \/ (r1 = r2 /\ s1 <= s2))).

Definition hrs_of (prs : PeerRoundState) : HRS :=
  (value (Height prs), value (Round prs), step_rank (Step prs)).

Definition hrs_of_wire (w : WireNewRoundStep) : HRS :=
  (wire_Height w, wire_Round w, step_rank (wire_Step w)).

(** The dispatcher of one peer handing the reactor a sequence of
    messages, each with the time of its arrival. *)
Fixpoint ReceiveNewRoundSteps (msgs : list (Z * Msg)) (w : World)
  : Alloc (outcome World) :=
  match msgs with
  | [] => ret (Returns w)
  | (now, m) :: rest =>
      let* o := ReceiveNewRoundStep now m w in
      match o with
      | Returns w' => ReceiveNewRoundSteps rest w'
      | Blocked => ret Blocked
      end
  end.

(** Every pointer kept in the mirror points to a cell allocated earlier:
    below the next free address [n]. *)
Definition allocated (n : positive) (prs : PeerRoundState) : Prop :=
  (addr (Height prs) < n)%positive /\
  (addr (Round prs) < n)%positive /\
  (addr (ProposalPOLRound prs) < n)%positive /\
  (addr (LastCommitRound prs) < n)%positive /\
  (addr (CatchupCommitRound prs) < n)%positive.

(** ** Concrete states used to run the handlers *)

(** A running reactor with an empty input queue that has room for 1000
    entries. *)
Definition reactor0 : ConsensusReactor := mkConsensusReactor true [] 1000.

(** A mirror at (H=5, R=2, S=Precommit) holding the precommits [1,0,1];
    its five integers live at the addresses 1 to 5. *)
Definition mirror_5_2 : PeerRoundState :=
  {| Height := mkBigInt 1 5; Round := mkBigInt 2 2;
     Step := RoundStepPrecommit; StartTime := 0;
     Proposal := false; ProposalBlockHeader := Hash_zero;
     ProposalPOLRound := mkBigInt 3 (-1); ProposalPOL := None;
     Prevotes := None; Precommits := Some [true; false; true];
     LastCommitRound := mkBigInt 4 (-1); LastCommit := None;
     CatchupCommitRound := mkBigInt 5 (-1); CatchupCommit := None |}.

(** A mirror at (H=5, R=1, S=Propose) with last commit [1,1] of round 0
    and the catch-up commit [1,0,1] of round 3. *)
Definition mirror_5_1 : PeerRoundState :=
  {| Height := mkBigInt 1 5; Round := mkBigInt 2 1;
     Step := RoundStepPropose; StartTime := 0;
     Proposal := false; ProposalBlockHeader := Hash_zero;
     ProposalPOLRound := mkBigInt 3 (-1); ProposalPOL := None;
     Prevotes := None; Precommits := None;
     LastCommitRound := mkBigInt 4 0; LastCommit := Some [true; true];
     CatchupCommitRound := mkBigInt 5 3;
     CatchupCommit := Some [true; false; true] |}.

(** The world of a handler: [reactor0] and peer 7 with the given mirror,
    its mutex free. *)
Definition world_of (prs : PeerRoundState) : World :=
  mkWorld reactor0 (mkPeer 7 (Some (mkPeerState false prs))).

(** The mirror of the source peer after a handler has run from the next
    free address 6. *)
Definition mirror_after (run : Alloc (outcome World)) : option PeerRoundState :=
  match fst (run 6%positive) with
  | Returns w =>
      match peer_State (src w) with
      | Some ps => Some (PRS ps)
      | None => None
      end
  | Blocked => None
  end.

(** (H=6, R=0, S=NewHeight) with last commit round 2. *)
Definition step_6_0 : WireNewRoundStep :=
  mkWireNewRoundStep 6 0 RoundStepNewHeight 0 2.

(** (H=5, R=1, S=Prevote) with last commit round 0. *)
Definition step_5_1_prevote : WireNewRoundStep :=
  mkWireNewRoundStep 5 1 RoundStepPrevote 0 0.

(** (H=5, R=3, S=Precommit) with last commit round 0. *)
Definition step_5_3 : WireNewRoundStep :=
  mkWireNewRoundStep 5 3 RoundStepPrecommit 0 0.

(** A prevote of validator 2 at (H=5, R=2). *)
Definition vote_5_2 : WireVote := mkWireVote 5 2 1 2.

(** A proposal for (H=5, R=2) without POL round, its block header
    hashing to 99. *)
Definition proposal_5_2 : types.Proposal :=
  types.mkProposal (mkBigInt 10 5) (mkBigInt 11 2) (mkBigInt 12 (-1)) 99%N.

End props.

Module evidence_props.

Import evidence.

(** At most 100 blocks and 1 unit of [MaxAgeDuration]; the last block
    was made at 2 ns. *)
Definition state0 : State := mkState (mkEvidenceParams 100 1) 2.

(** Evidence of height 5 made at 0 ns. *)
Definition evidence_5 : Evidence := mkEvidence 5 0 0.

(** Peer 7, known to be at height 5. *)
Definition peer_at_5 : Peer := mkPeer 7 (Some 5).

(** A pool that keeps what it was given, in the order of the calls, and
    judges an item by its body: 0 is accepted, 1 is invalid, anything
    else fails for another reason. *)
Definition list_pool_Add (pool : list Evidence) (ev : Evidence)
  : list Evidence * option error :=
  (pool ++ [ev],
   if N.eqb (ev_Body ev) 0 then None
   else if N.eqb (ev_Body ev) 1 then Some (ErrEvidenceInvalid 0)
   else Some (ErrOther 0)).

(** A decoder for which every byte is one piece of evidence, of height 1
    and time 0, with the byte as its body. *)
Definition bytes_Unmarshal (bz : list Z) : option (list Evidence) :=
  Some (map (fun b => mkEvidence 1 0 (Z.to_N b)) bz).

Definition evidence_of_body (b : N) : Evidence := mkEvidence 1 0 b.

End evidence_props.

Module blockchain_props.

Import cmn blockchain.

(** The height of the current header when [SetHead] is entered (0 when
    there is none): the local variable [height]. *)
Definition entry_height (hc : HeaderChain) : N :=
  match CurrentHeader hc with
  | Some hdr => Height hdr
  | None => 0%N
  end.

(** [rewinds head hc hdrs hc']: from [hc], the rewind loop walks the
    headers [hdrs] in this order, each above [head], each the result of
    looking up the [LastCommitHash] of the one before, and stops in
    [hc'], whose current header is nil or not above [head]. *)
Inductive rewinds (head : N) : HeaderChain -> list Header -> HeaderChain -> Prop :=
| rewinds_nil hc :
    CurrentHeader hc = None ->
    rewinds head hc [] hc
| rewinds_low hc hdr :
    CurrentHeader hc = Some hdr ->
    (Height hdr <= head)%N ->
    rewinds head hc [] hc
| rewinds_step hc hdr prev hc1 hdrs hc2 :
    CurrentHeader hc = Some hdr ->
    (head < Height hdr)%N ->
    GetHeader (LastCommitHash hdr) (Height hdr - 1)%N hc = (prev, hc1) ->
    rewinds head (currentHeader_Store prev hc1) hdrs hc2 ->
    rewinds head hc (hdr :: hdrs) hc2.

(** A header that the chain holds: the current one, one in the header
    cache, or one in the store. *)
Definition known (hc : HeaderChain) (x : Header) : Prop :=
  CurrentHeader hc = Some x \/
  (exists k, lru.find k (lru.items (headerCache hc)) = Some x) \/
  (exists k n, header (chainDb hc) !! (k, n) = Some x).

(** What a lookup of the hash [k] can return, at whatever height. *)
Definition found (hc : HeaderChain) (k : Hash) (x : Header) : Prop :=
  lru.find k (lru.items (headerCache hc)) = Some x \/
  (exists n, header (chainDb hc) !! (k, n) = Some x).

(** Heights decrease along [LastCommitHash]: whatever is found under
    the [LastCommitHash] of a header the chain holds is lower than that
    header. *)
Definition descending (hc : HeaderChain) : Prop :=
  forall hdr x,
    known hc hdr -> found hc (LastCommitHash hdr) x ->
    (Height x < Height hdr)%N.

Section WithHash.

Variable Header_Hash : Header -> Hash.

(** The keys that the rewind loop puts in the batch for the walked
    headers: for each, those of the callback, when there is one, and
    then those of [rawdb.DeleteHeader]. *)
Definition deletions (delFn : option DeleteCallback) (hdrs : list Header)
  : Batch :=
  flat_map
    (fun hdr =>
       match delFn with
       | Some f => f (Header_Hash hdr) (Height hdr)
       | None => []
       end ++ DeleteHeader (Header_Hash hdr) (Height hdr))
    hdrs.

End WithHash.

(** ** A chain of three headers *)

(** A stand-in for the hash of a header. *)
Definition toy_Hash (h : Header) : Hash := (100 + Height h + hdr_Rest h)%N.

Definition header0 : Header := mkHeader 0%N 0%N 0%N.
Definition header1 : Header := mkHeader 1%N 100%N 0%N.
Definition header2 : Header := mkHeader 2%N 101%N 0%N.

(** A store with the three headers and their canonical hashes. *)
Definition db012 : Database :=
  {| canonical_hash := <[0%N := 100%N]> (<[1%N := 101%N]> (<[2%N := 102%N]> ∅));
     header := <[(100%N, 0%N) := header0]>
                 (<[(101%N, 1%N) := header1]>
                    (<[(102%N, 2%N) := header2]> ∅));
     header_height := <[100%N := 0%N]> (<[101%N := 1%N]> (<[102%N := 2%N]> ∅));
     head_header_hash := Some 101%N;
     other_data := ∅ |}.

(** The header chain over [db012] whose current header is the one of
    height 1, with empty caches. *)
Definition chain_at_1 : HeaderChain :=
  {| chainDb := db012;
     genesisHeader := Some header0;
     currentHeader := Some header1;
     currentHeaderHash := 101%N;
     headerCache := lru.New headerCacheLimit;
     heightCache := lru.New heightCacheLimit |}.

(** The same with the header of height 2 as current header. *)
Definition chain_at_2 : HeaderChain :=
  {| chainDb := db012;
     genesisHeader := Some header0;
     currentHeader := Some header2;
     currentHeaderHash := 102%N;
     headerCache := lru.New headerCacheLimit;
     heightCache := lru.New heightCacheLimit |}.

(** A callback that deletes the body kept under the height. *)
Definition delete_body : DeleteCallback := fun _ height => [otherKey height].

End blockchain_props.

Module evidence_gossip_props.

Import evidence.

(** The peer has a state, and its height is not below the evidence's. *)
Definition not_behind (peer : Peer) (ev : Evidence) : Prop :=
  exists h, peer_GetHeight peer = Some h /\ ev_Height ev <= h.

(** The peer has no state yet, or is below the evidence's height. *)
Definition not_ready (peer : Peer) (ev : Evidence) : Prop :=
  peer_GetHeight peer = None \/
  exists h, peer_GetHeight peer = Some h /\ h < ev_Height ev.

(** A conversion that keeps the height and accepts only evidence of
    time 0 and body 0, and its inverse. *)
Definition height_ToProto (ev : Evidence) : option Z :=
  if (ev_Time ev =? 0) && N.eqb (ev_Body ev) 0 then Some (ev_Height ev)
  else None.

Definition height_FromProto (h : Z) : option Evidence :=
  Some (mkEvidence h 0 0).

End evidence_gossip_props.

Module headerchain_props.

Import cmn blockchain.

(** A key that is not the canonical hash or a header of a height up to
    [head]. *)
Definition key_above (head : N) (k : Key) : Prop :=
  match k with
  | canonicalKey i => (head < i)%N
  | headerKey _ i => (head < i)%N
  | _ => True
  end.

(** A callback spares the heights up to [head]: called for a header
    above [head], it deletes no canonical hash and no header of a height
    up to [head]. *)
Definition spares (head : N) (f : DeleteCallback) : Prop :=
  forall hash height k,
    (head < height)%N -> In k (f hash height) -> key_above head k.

End headerchain_props.

Module reactor_props.

Import cmn cstypes consensus props reactor.

(** A local round state at (H=5, R=2) with the proposal for (H=5, R=2)
    and no prevotes. *)
Definition round_state_5_2 : RoundState :=
  mkRoundState (mkBigInt 20 5) (mkBigInt 21 2) (Some proposal_5_2)
               (fun _ => None).

End reactor_props.
(* ===================================================================== *)
(** * Properties of the consensus reactor *)
(* ===================================================================== *)

Import cmn cstypes consensus props.

Arguments hrs_le : simpl never.
Arguments hrs_of : simpl never.
Arguments hrs_of_wire : simpl never.

(** Case analysis on the condition of the outermost conditional of the
    goal. *)
Ltac break_if :=
  match goal with
  | |- context [if ?c then _ else _] => destruct c eqn:?
  end.

Lemma CompareHRS_le_spec h1 r1 s1 h2 r2 s2 :
  (CompareHRS h1 r1 s1 h2 r2 s2 <=? 0) = true <->
  hrs_le (value h1, value r1, step_rank s1) (value h2, value r2, step_rank s2).
Proof.
  unfold CompareHRS, hrs_le.
  repeat match goal with
         | |- context [?a <? ?b] => destruct (Z.ltb_spec a b)
         end; split; intros ?; try reflexivity; try discriminate; lia.
Qed.

Lemma hrs_le_refl a : hrs_le a a.
Proof. destruct a as [[h r] s]. unfold hrs_le. lia. Qed.

Lemma hrs_le_trans a b c : hrs_le a b -> hrs_le b c -> hrs_le a c.
Proof.
  destruct a as [[h1 r1] s1], b as [[h2 r2] s2], c as [[h3 r3] s3].
  unfold hrs_le. lia.
Qed.

Lemma hrs_le_total a b : hrs_le a b \/ hrs_le b a.
Proof.
  destruct a as [[h1 r1] s1], b as [[h2 r2] s2]. unfold hrs_le. lia.
Qed.

(** The critical section of [ReceiveNewRoundStep]: a message that is not
    above the mirror is dropped, any other message sets the triple. *)
Lemma applyNewRoundStep_HRS now msg prs n :
  let prs' := fst (applyNewRoundStep now msg prs n) in
  ((CompareHRS (msg_Height msg) (msg_Round msg) (msg_Step msg)
               (Height prs) (Round prs) (Step prs) <=? 0) = true ->
   prs' = prs) /\
  ((CompareHRS (msg_Height msg) (msg_Round msg) (msg_Step msg)
               (Height prs) (Round prs) (Step prs) <=? 0) = false ->
   Height prs' = msg_Height msg /\ Round prs' = msg_Round msg /\
   Step prs' = msg_Step msg).
Proof.
  unfold applyNewRoundStep.
  destruct (CompareHRS _ _ _ _ _ _ <=? 0); simpl; split; intros E;
    try discriminate; try reflexivity.
  unfold bind, ret, NewBigInt, Add.
  repeat (break_if; simpl); auto.
Qed.

Lemma Decode_NewRoundStep_wire wire n :
  Decode_NewRoundStep (MsgNewRoundStep wire) n =
  (Some (mkNewRoundStepMessage
           (mkBigInt n (wire_Height wire))
           (mkBigInt (Pos.succ n) (wire_Round wire))
           (wire_Step wire)
           (wire_SecondsSinceStartTime wire)
           (mkBigInt (Pos.succ (Pos.succ n)) (wire_LastCommitRound wire))),
   Pos.succ (Pos.succ (Pos.succ n))).
Proof. reflexivity. Qed.

Lemma Decode_NewRoundStep_cases m :
  (exists wire, m = MsgNewRoundStep wire) \/
  (forall k, Decode_NewRoundStep m k = (None, k)).
Proof. destruct m; eauto. Qed.

(** One message handled for a peer whose mutex is free: the handler
    returns, the mutex is free again, and the triple has not decreased. *)
Lemma ReceiveNewRoundStep_step now m w ps n :
  peer_State (src w) = Some ps -> mtx ps = false ->
  exists ps' n',
    ReceiveNewRoundStep now m w n
      = (Returns (mkWorld (conR w) (with_State (src w) ps')), n') /\
    mtx ps' = false /\
    hrs_le (hrs_of (PRS ps)) (hrs_of (PRS ps')).
Proof.
  intros Hps Hmtx.
  assert (Hw : w = mkWorld (conR w) (with_State (src w) ps)).
  { destruct w as [c [i s]]; simpl in *; subst; reflexivity. }
  unfold ReceiveNewRoundStep.
  destruct (running (conR w)); simpl.
  2:{ exists ps, n. rewrite <- Hw. auto using hrs_le_refl. }
  destruct (Decode_NewRoundStep_cases m) as [[wire ->] | Hnone].
  - unfold bind at 1. rewrite Decode_NewRoundStep_wire, Hps, Hmtx.
    set (msg := mkNewRoundStepMessage _ _ _ _ _).
    set (n3 := Pos.succ _).
    unfold bind, ret.
    destruct (applyNewRoundStep now msg (PRS ps) n3) as [prs' n'] eqn:Happ.
    exists (mkPeerState false prs'), n'. split; [reflexivity|]. split; [reflexivity|].
    simpl.
    pose proof (applyNewRoundStep_HRS now msg (PRS ps) n3) as [Hle Hgt].
    rewrite Happ in Hle, Hgt. simpl in Hle, Hgt.
    destruct (CompareHRS _ _ _ _ _ _ <=? 0) eqn:Hc.
    + rewrite Hle by reflexivity. apply hrs_le_refl.
    + destruct (Hgt eq_refl) as (Hh & Hr & Hs).
      unfold hrs_of. rewrite Hh, Hr, Hs.
      destruct (hrs_le_total
                  (value (Height (PRS ps)), value (Round (PRS ps)),
                   step_rank (Step (PRS ps)))
                  (value (msg_Height msg), value (msg_Round msg),
                   step_rank (msg_Step msg))) as [|Hbad]; [assumption|].
      apply CompareHRS_le_spec in Hbad. simpl in Hbad.
      rewrite Hbad in Hc. discriminate.
  - unfold bind. rewrite Hnone. simpl.
    exists ps, n. rewrite <- Hw. auto using hrs_le_refl.
Qed.

Lemma ReceiveNewRoundSteps_run msgs :
  forall w ps n,
    peer_State (src w) = Some ps -> mtx ps = false ->
    exists w' ps' n',
      ReceiveNewRoundSteps msgs w n = (Returns w', n') /\
      peer_State (src w') = Some ps' /\ mtx ps' = false /\
      hrs_le (hrs_of (PRS ps)) (hrs_of (PRS ps')).
Proof.
  induction msgs as [|[now m] rest IH]; intros w ps n Hps Hmtx.
  - exists w, ps, n. simpl. auto using hrs_le_refl.
  - destruct (ReceiveNewRoundStep_step now m w ps n Hps Hmtx)
      as (ps1 & n1 & Hrun & Hm1 & Hle1).
    destruct (IH (mkWorld (conR w) (with_State (src w) ps1)) ps1 n1 eq_refl Hm1)
      as (w' & ps' & n' & Hrest & Hps' & Hm' & Hle').
    exists w', ps', n'. simpl. unfold bind. rewrite Hrun.
    eauto using hrs_le_trans.
Qed.

(** C1.  For a peer that has a mirror whose mutex is free: (1) a running
    reactor that receives a NewRoundStep message returns; if the message's
    (H, R, S) is less than or equal to the mirror's (height, round, step) in
    the lexicographic order, the peer state is left exactly as it was, and
    otherwise the mirror's height, round and step hold the message's values;
    (2) after any sequence of received messages the handler has returned
    every time and the mirror's (height, round, step) is not below the one
    it started from. *)
Theorem mirror_HRS_never_decreases (w : World) (ps : PeerState) :
  peer_State (src w) = Some ps -> mtx ps = false ->
  (forall now wire n,
      running (conR w) = true ->
      exists ps' n',
        ReceiveNewRoundStep now (MsgNewRoundStep wire) w n
          = (Returns (mkWorld (conR w) (with_State (src w) ps')), n') /\
        (hrs_le (hrs_of_wire wire) (hrs_of (PRS ps)) -> ps' = ps) /\
        (~ hrs_le (hrs_of_wire wire) (hrs_of (PRS ps)) ->
         hrs_of (PRS ps') = hrs_of_wire wire)) /\
  (forall msgs n,
      exists w' ps' n',
        ReceiveNewRoundSteps msgs w n = (Returns w', n') /\
        peer_State (src w') = Some ps' /\
        hrs_le (hrs_of (PRS ps)) (hrs_of (PRS ps'))).
Proof.
  intros Hps Hmtx. split.
  - intros now wire n Hrun.
    unfold ReceiveNewRoundStep. rewrite Hrun. cbn [negb].
    unfold bind at 1. rewrite Decode_NewRoundStep_wire, Hps, Hmtx.
    set (msg := mkNewRoundStepMessage _ _ _ _ _).
    set (n3 := Pos.succ _).
    unfold bind, ret.
    destruct (applyNewRoundStep now msg (PRS ps) n3) as [prs' n'] eqn:Happ.
    exists (mkPeerState false prs'), n'. split; [reflexivity|].
    pose proof (applyNewRoundStep_HRS now msg (PRS ps) n3) as [Hle Hgt].
    rewrite Happ in Hle, Hgt. simpl in Hle, Hgt.
    pose proof (CompareHRS_le_spec (msg_Height msg) (msg_Round msg)
                  (msg_Step msg) (Height (PRS ps)) (Round (PRS ps))
                  (Step (PRS ps))) as Hspec.
    simpl in Hspec. fold (hrs_of_wire wire) in Hspec.
    fold (hrs_of (PRS ps)) in Hspec.
    split.
    + intros Hdrop. apply Hspec in Hdrop. rewrite (Hle Hdrop).
      destruct ps; simpl in *; subst; reflexivity.
    + intros Hnew.
      destruct (CompareHRS _ _ _ _ _ _ <=? 0) eqn:Hc.
      * exfalso. apply Hnew, Hspec. reflexivity.
      * destruct (Hgt eq_refl) as (Hh & Hr & Hs).
        unfold hrs_of, hrs_of_wire. simpl. rewrite Hh, Hr, Hs. reflexivity.
  - intros msgs n.
    destruct (ReceiveNewRoundSteps_run msgs w ps n Hps Hmtx)
      as (w' & ps' & n' & H1 & H2 & _ & H3).
    exists w', ps', n'. repeat split; assumption.
Qed.

(** ** Messages built by the decoder *)

(** The message that [Decode] builds from [wire] at the free address [n]. *)
Lemma decoded_fresh wire n prs :
  allocated n prs ->
  forall msg n', Decode_NewRoundStep (MsgNewRoundStep wire) n = (Some msg, n') ->
    ptr_eq (Height prs) (msg_Height msg) = false /\
    ptr_eq (Round prs) (msg_Round msg) = false /\
    ptr_eq (msg_Round msg) (CatchupCommitRound prs) = false /\
    allocated n' prs.
Proof.
  intros (Hh & Hr & Hp & Hl & Hc) msg n' Hdec.
  rewrite Decode_NewRoundStep_wire in Hdec. inversion Hdec; subst; clear Hdec.
  unfold ptr_eq, allocated; simpl.
  repeat split; try (apply Pos.eqb_neq); lia.
Qed.

(** What the critical section leaves in the commit fields when the
    message was built by the decoder and is above the mirror: since its
    pointers differ from every pointer of the mirror, the catch-up branch
    is never entered and the height branch always is; [Precommits] has
    been cleared by then whenever the height differs. *)
Lemma applyNewRoundStep_decoded now msg prs n :
  ptr_eq (Height prs) (msg_Height msg) = false ->
  (CompareHRS (msg_Height msg) (msg_Round msg) (msg_Step msg)
              (Height prs) (Round prs) (Step prs) <=? 0) = false ->
  let prs' := fst (applyNewRoundStep now msg prs n) in
  LastCommit prs' = None /\
  LastCommitRound prs' = msg_LastCommitRound msg /\
  CatchupCommit prs' = None /\
  value (CatchupCommitRound prs') = -1 /\
  Precommits prs' =
    (if Equals (Height prs) (msg_Height msg) && Equals (Round prs) (msg_Round msg)
     then Precommits prs else None).
Proof.
  intros Hptr Hcmp. unfold applyNewRoundStep. rewrite Hcmp, Hptr.
  unfold bind, ret, NewBigInt, Add, Equals. simpl.
  destruct (value (Height prs) =? value (msg_Height msg)) eqn:Hh; simpl.
  - assert ((value (Height prs) + 1 =? value (msg_Height msg)) = false) as ->
        by (apply Z.eqb_eq in Hh; apply Z.eqb_neq; lia).
    destruct (value (Round prs) =? value (msg_Round msg)); simpl; auto.
  - repeat (break_if; simpl); auto.
Qed.

(** The same for the mirror at (H=5, R=2, S=Precommit). *)
Lemma mirror_HRS_never_decreases_witness :
  (forall now wire n,
      running (conR (world_of mirror_5_2)) = true ->
      exists ps' n',
        ReceiveNewRoundStep now (MsgNewRoundStep wire) (world_of mirror_5_2) n
          = (Returns (mkWorld (conR (world_of mirror_5_2))
                        (with_State (src (world_of mirror_5_2)) ps')), n') /\
        (hrs_le (hrs_of_wire wire) (hrs_of (PRS (mkPeerState false mirror_5_2))) ->
         ps' = mkPeerState false mirror_5_2) /\
        (~ hrs_le (hrs_of_wire wire) (hrs_of (PRS (mkPeerState false mirror_5_2))) ->
         hrs_of (PRS ps') = hrs_of_wire wire)) /\
  (forall msgs n,
      exists w' ps' n',
        ReceiveNewRoundSteps msgs (world_of mirror_5_2) n = (Returns w', n') /\
        peer_State (src w') = Some ps' /\
        hrs_le (hrs_of (PRS (mkPeerState false mirror_5_2))) (hrs_of (PRS ps'))).
Proof.
  apply (mirror_HRS_never_decreases (world_of mirror_5_2)
           (mkPeerState false mirror_5_2)); reflexivity.
Defined.

(** C2.  The mirror at (H=5, R=2) with precommits [1,0,1] receives
    (H=6, R=0, NewHeight, last_commit_round=2): the height advances by
    exactly one and the prior round equals the message's last commit round,
    yet the mirror ends with [LastCommit] nil (and last commit round 2),
    because [Precommits] was cleared before it was copied.  (Both mirrors
    keep their integers at the addresses 1 to 5; the decoder allocates
    from 6 on.)  The mirror at
    (H=5, R=1, Propose) with last commit [1,1] receives (H=5, R=1, Prevote):
    the height is the same, yet the height branch is taken, [LastCommit]
    and the catch-up commit are reset, because the heights are compared as
    pointers. *)
Theorem height_shift_loses_precommits :
  allocated 6 mirror_5_2 /\ allocated 6 mirror_5_1 /\
  Precommits mirror_5_2 = Some [true; false; true] /\
  (exists prs',
      mirror_after (ReceiveNewRoundStep 0 (MsgNewRoundStep step_6_0)
                      (world_of mirror_5_2)) = Some prs' /\
      hrs_of prs' = (6, 0, step_rank RoundStepNewHeight) /\
      LastCommit prs' = None /\
      value (LastCommitRound prs') = 2) /\
  LastCommit mirror_5_1 = Some [true; true] /\
  (exists prs',
      mirror_after (ReceiveNewRoundStep 0 (MsgNewRoundStep step_5_1_prevote)
                      (world_of mirror_5_1)) = Some prs' /\
      hrs_of prs' = (5, 1, step_rank RoundStepPrevote) /\
      LastCommit prs' = None /\
      CatchupCommit prs' = None /\
      value (CatchupCommitRound prs') = -1).
Proof.
  split; [repeat split|]. split; [repeat split|].
  split; [reflexivity|]. split.
  - eexists. split; [vm_compute; reflexivity|]. repeat split.
  - split; [reflexivity|].
    eexists. split; [vm_compute; reflexivity|]. repeat split.
Qed.

(** C3.  The mirror at (H=5, R=1) whose catch-up commit of round 3 is
    [1,0,1] receives (H=5, R=3, Precommit): same height, another round, the
    round of the catch-up commit; yet the mirror ends with [Precommits]
    nil, because the three tests of the catch-up branch compare pointers
    and the message's integers are new cells. *)
Theorem catchup_commit_not_restored :
  allocated 6 mirror_5_1 /\
  CatchupCommit mirror_5_1 = Some [true; false; true] /\
  value (CatchupCommitRound mirror_5_1) = 3 /\
  exists prs',
    mirror_after (ReceiveNewRoundStep 0 (MsgNewRoundStep step_5_3)
                    (world_of mirror_5_1)) = Some prs' /\
    hrs_of prs' = (5, 3, step_rank RoundStepPrecommit) /\
    Precommits prs' = None.
Proof.
  split; [repeat split|].
  split; [reflexivity|]. split; [reflexivity|].
  eexists. split; [vm_compute; reflexivity|]. repeat split.
Qed.

(** The critical section keeps every pointer of the mirror below the next
    free address. *)
Lemma applyNewRoundStep_allocated now msg prs n :
  allocated n prs ->
  (addr (msg_Height msg) < n)%positive ->
  (addr (msg_Round msg) < n)%positive ->
  (addr (msg_LastCommitRound msg) < n)%positive ->
  allocated (snd (applyNewRoundStep now msg prs n))
            (fst (applyNewRoundStep now msg prs n)).
Proof.
  intros (Hh & Hr & Hp & Hl & Hc) Hmh Hmr Hml.
  unfold applyNewRoundStep, bind, ret, NewBigInt, Add, allocated.
  repeat (break_if; simpl); repeat split; lia.
Qed.

(** The handler on a message that is above the mirror, for a mirror whose
    pointers were all allocated before the message arrived: whatever the
    heights and rounds are, the mirror ends with [LastCommit] and
    [CatchupCommit] nil, and its [Precommits] are the old ones when height
    and round are unchanged and nil otherwise. *)
Lemma ReceiveNewRoundStep_commit_fields now wire w ps n :
  running (conR w) = true ->
  peer_State (src w) = Some ps -> mtx ps = false ->
  allocated n (PRS ps) ->
  ~ hrs_le (hrs_of_wire wire) (hrs_of (PRS ps)) ->
  exists ps' n',
    ReceiveNewRoundStep now (MsgNewRoundStep wire) w n
      = (Returns (mkWorld (conR w) (with_State (src w) ps')), n') /\
    LastCommit (PRS ps') = None /\
    value (LastCommitRound (PRS ps')) = wire_LastCommitRound wire /\
    CatchupCommit (PRS ps') = None /\
    Precommits (PRS ps') =
      (if (value (Height (PRS ps)) =? wire_Height wire)
          && (value (Round (PRS ps)) =? wire_Round wire)
       then Precommits (PRS ps) else None) /\
    allocated n' (PRS ps').
Proof.
  intros Hrun Hps Hmtx Halloc Hnew.
  unfold ReceiveNewRoundStep. rewrite Hrun. cbn [negb].
  unfold bind at 1. rewrite Decode_NewRoundStep_wire, Hps, Hmtx.
  destruct (decoded_fresh wire n (PRS ps) Halloc _ _
              (Decode_NewRoundStep_wire wire n)) as (Hptr & _ & _ & Halloc3).
  set (n3 := Pos.succ (Pos.succ (Pos.succ n))) in *.
  set (msg := mkNewRoundStepMessage _ _ _ _ _) in *.
  unfold bind, ret.
  destruct (applyNewRoundStep now msg (PRS ps) n3) as [prs' n'] eqn:Happ.
  exists (mkPeerState false prs'), n'. split; [reflexivity|]. cbn [PRS].
  assert (Hcmp : (CompareHRS (msg_Height msg) (msg_Round msg) (msg_Step msg)
                    (Height (PRS ps)) (Round (PRS ps)) (Step (PRS ps)) <=? 0)
                 = false).
  { destruct (CompareHRS _ _ _ _ _ _ <=? 0) eqn:Hc; [|reflexivity].
    exfalso. apply Hnew. apply CompareHRS_le_spec in Hc. exact Hc. }
  pose proof (applyNewRoundStep_decoded now msg (PRS ps) n3 Hptr Hcmp) as Hf.
  rewrite Happ in Hf. cbn [fst] in Hf.
  destruct Hf as (H1 & H2 & H3 & _ & H5).
  refine (conj H1 (conj _ (conj H3 (conj H5 _)))).
  - rewrite H2. reflexivity.
  - pose proof (applyNewRoundStep_allocated now msg (PRS ps) n3 Halloc3) as Ha.
    rewrite Happ in Ha. apply Ha; subst n3; simpl; lia.
Qed.

(** ** The vote handler *)

(** A vote of validator 2 received from peer 7 by a running reactor whose
    input queue is empty: the handler returns and the queue is still
    empty. *)
Lemma vote_is_not_enqueued :
  exists w' n',
    ReceiveNewVote (MsgVote vote_5_2) (world_of mirror_5_2) 6%positive
      = (Returns w', n') /\
    peerMsgQueue (conR (world_of mirror_5_2)) = [] /\
    forall i, ~ In i (peerMsgQueue (conR w')).
Proof.
  eexists. eexists. split; [vm_compute; reflexivity|].
  split; [reflexivity|]. intros i Hin. exact Hin.
Qed.

(** C6, as the code has it.  For every inbound Vote message that decodes,
    from a peer that has a mirror (its mutex free), the vote handler of a
    running reactor returns with the input queue of the state machine and
    the fields of the mirror as they were: nothing is enqueued. *)
Theorem ReceiveNewVote_enqueues_nothing (w : World) (ps : PeerState)
                                         (vote : WireVote) (n : positive) :
  running (conR w) = true ->
  peer_State (src w) = Some ps ->
  mtx ps = false ->
  exists w' ps' n',
    ReceiveNewVote (MsgVote vote) w n = (Returns w', n') /\
    peerMsgQueue (conR w') = peerMsgQueue (conR w) /\
    peer_State (src w') = Some ps' /\
    PRS ps' = PRS ps.
Proof.
  intros Hrun Hps Hmtx.
  unfold ReceiveNewVote. rewrite Hrun. cbn [negb].
  unfold bind at 1. cbn [Decode_Vote]. unfold bind, ret, NewBigInt.
  rewrite Hps, Hmtx.
  eexists. eexists. eexists. split; [reflexivity|].
  repeat split.
Qed.

(** The same for the vote of validator 2 and the mirror at (H=5, R=2). *)
Lemma ReceiveNewVote_enqueues_nothing_witness :
  exists w' ps' n',
    ReceiveNewVote (MsgVote vote_5_2) (world_of mirror_5_2) 6%positive
      = (Returns w', n') /\
    peerMsgQueue (conR w') = peerMsgQueue (conR (world_of mirror_5_2)) /\
    peer_State (src w') = Some ps' /\
    PRS ps' = PRS (mkPeerState false mirror_5_2).
Proof.
  apply (ReceiveNewVote_enqueues_nothing (world_of mirror_5_2)
           (mkPeerState false mirror_5_2) vote_5_2 6%positive); reflexivity.
Defined.

(** The proposal handler, for comparison: it does put the decoded
    proposal into the input queue, when the queue has room. *)
Lemma ReceiveNewProposal_enqueues (w : World) (ps : PeerState)
                                  (p : WireProposal) (n : positive) :
  running (conR w) = true ->
  peer_State (src w) = Some ps ->
  mtx ps = false ->
  (length (peerMsgQueue (conR w)) < peerMsgQueue_cap (conR w))%nat ->
  exists w' proposal n',
    ReceiveNewProposal (MsgProposal p) w n = (Returns w', n') /\
    value (types.prop_Height proposal) = wire_prop_Height p /\
    value (types.prop_Round proposal) = wire_prop_Round p /\
    peerMsgQueue (conR w') =
      peerMsgQueue (conR w)
        ++ [mkMsgInfo (QueuedProposal proposal) (peer_ID (src w))].
Proof.
  intros Hrun Hps Hmtx Hroom.
  unfold ReceiveNewProposal. rewrite Hrun. cbn [negb].
  unfold bind at 1. cbn [Decode_Proposal]. unfold bind, ret, NewBigInt.
  rewrite Hps. unfold SetHasProposal, enqueue. rewrite Hmtx.
  apply Nat.ltb_lt in Hroom. rewrite Hroom.
  eexists.
  exists (types.mkProposal
            (mkBigInt n (wire_prop_Height p))
            (mkBigInt (Pos.succ n) (wire_prop_Round p))
            (mkBigInt (Pos.succ (Pos.succ n)) (wire_prop_POLRound p))
            (wire_prop_Block_Header_Hash p)).
  eexists. split; [reflexivity|]. repeat split.
Qed.

(** ** SetHasProposal *)

Lemma setHasProposal_twice proposal prs :
  setHasProposal proposal (setHasProposal proposal prs)
  = setHasProposal proposal prs.
Proof.
  unfold setHasProposal.
  destruct (negb (Equals (Height prs) (types.prop_Height proposal))
            || negb (Equals (Round prs) (types.prop_Round proposal))) eqn:Hhr.
  - rewrite Hhr. reflexivity.
  - destruct (Proposal prs) eqn:Hp.
    + rewrite Hhr, Hp. reflexivity.
    + cbn [record_proposal Height Round Proposal]. rewrite Hhr. reflexivity.
Qed.

(** C7.  For a peer state whose mutex is free, [SetHasProposal] returns,
    and calling it again with the same proposal returns the very same
    state.  If the proposal's height or round differs from the mirror's, or
    the mirror already has a proposal, the state is unchanged.  Otherwise
    the mirror has proposal = true, the hash of the proposal's block header,
    the proposal's POL round and a nil POL bit array, and every other field
    is as before. *)
Theorem SetHasProposal_idempotent (proposal : types.Proposal) (ps : PeerState) :
  mtx ps = false ->
  exists ps1,
    SetHasProposal proposal ps = Returns ps1 /\
    SetHasProposal proposal ps1 = Returns ps1 /\
    (value (Height (PRS ps)) <> value (types.prop_Height proposal) \/
     value (Round (PRS ps)) <> value (types.prop_Round proposal) \/
     Proposal (PRS ps) = true ->
     ps1 = ps) /\
    (value (Height (PRS ps)) = value (types.prop_Height proposal) ->
     value (Round (PRS ps)) = value (types.prop_Round proposal) ->
     Proposal (PRS ps) = false ->
     mtx ps1 = false /\
     PRS ps1 =
       {| Height := Height (PRS ps); Round := Round (PRS ps);
          Step := Step (PRS ps); StartTime := StartTime (PRS ps);
          Proposal := true;
          ProposalBlockHeader := types.prop_Block_Header_Hash proposal;
          ProposalPOLRound := types.prop_POLRound proposal;
          ProposalPOL := None;
          Prevotes := Prevotes (PRS ps); Precommits := Precommits (PRS ps);
          LastCommitRound := LastCommitRound (PRS ps);
          LastCommit := LastCommit (PRS ps);
          CatchupCommitRound := CatchupCommitRound (PRS ps);
          CatchupCommit := CatchupCommit (PRS ps) |}).
Proof.
  intros Hmtx.
  exists (mkPeerState false (setHasProposal proposal (PRS ps))).
  unfold SetHasProposal. rewrite Hmtx. cbn [mtx PRS].
  rewrite setHasProposal_twice.
  split; [reflexivity|]. split; [reflexivity|].
  unfold setHasProposal, Equals. split.
  - intros Hcase.
    assert (Hsame : (if negb (value (Height (PRS ps))
                              =? value (types.prop_Height proposal))
                        || negb (value (Round (PRS ps))
                                 =? value (types.prop_Round proposal))
                     then PRS ps
                     else if Proposal (PRS ps) then PRS ps
                          else record_proposal proposal (PRS ps)) = PRS ps).
    { destruct Hcase as [Hh | [Hr | Hp]].
      - apply Z.eqb_neq in Hh. rewrite Hh. reflexivity.
      - apply Z.eqb_neq in Hr. rewrite Hr, orb_true_r. reflexivity.
      - rewrite Hp. repeat break_if; reflexivity. }
    rewrite Hsame. destruct ps; simpl in *; subst; reflexivity.
  - intros Hh Hr Hp.
    apply Z.eqb_eq in Hh, Hr. rewrite Hh, Hr, Hp. cbn [negb orb].
    split; reflexivity.
Qed.

(** The proposal for (H=5, R=2) recorded in the mirror at (H=5, R=2). *)
Lemma SetHasProposal_idempotent_witness :
  exists ps1,
    SetHasProposal proposal_5_2 (mkPeerState false mirror_5_2) = Returns ps1 /\
    SetHasProposal proposal_5_2 ps1 = Returns ps1 /\
    Proposal (PRS ps1) = true /\
    ProposalBlockHeader (PRS ps1) = 99%N.
Proof.
  destruct (SetHasProposal_idempotent proposal_5_2 (mkPeerState false mirror_5_2)
              eq_refl) as (ps1 & H1 & H2 & _ & Hset).
  destruct (Hset eq_refl eq_refl eq_refl) as [_ Hprs].
  exists ps1. rewrite Hprs. repeat split; assumption.
Defined.

(* ===================================================================== *)
(** * Properties of the evidence reactor *)
(* ===================================================================== *)

Lemma to_int64_in_range z :
  GoInt.MinInt64 <= z <= GoInt.MaxInt64 -> GoInt.to_int64 z = z.
Proof.
  unfold GoInt.to_int64, GoInt.MinInt64, GoInt.MaxInt64, GoInt.two64, GoInt.two63.
  intros H. rewrite Z.mod_small; lia.
Qed.

(** Comparing the saturated difference of two times with a threshold
    below the largest duration is comparing the exact difference. *)
Lemma Time_Sub_above T t u :
  GoInt.MinInt64 <= T < GoInt.MaxInt64 ->
  (T <? evidence.Time_Sub t u) = (T <? t - u).
Proof.
  intros HT. unfold evidence.Time_Sub.
  destruct (Z.ltb_spec GoInt.MaxInt64 (t - u)).
  - destruct (Z.ltb_spec T GoInt.MaxInt64), (Z.ltb_spec T (t - u)); lia.
  - destruct (Z.ltb_spec (t - u) GoInt.MinInt64); [|reflexivity].
    destruct (Z.ltb_spec T GoInt.MinInt64), (Z.ltb_spec T (t - u)); lia.
Qed.

(** With [MaxAgeDuration] = 1, evidence that is 2 ns old is older than
    the maximal age taken as it is, and is sent all the same. *)
Lemma checkSend_sends_beyond_max_age_duration :
  let st := evidence_props.state0 in
  let ev := evidence_props.evidence_5 in
  evidence.MaxAgeDuration (evidence.ConsensusParams_Evidence st)
    < evidence.LastBlockTime st - evidence.ev_Time ev /\
  evidence.checkSendEvidenceMessage st evidence_props.peer_at_5 ev
    = ([ev], false).
Proof. split; [reflexivity | vm_compute; reflexivity]. Qed.

(** C4, as the code has it.  For a peer whose state gives a height, with
    both heights below 2^63 and [MaxAgeDuration] milliseconds a number of
    nanoseconds that fits a [Duration]: [checkSendEvidenceMessage] returns
    (empty, true) whenever the peer's height is below the evidence's;
    otherwise (empty, false) whenever peer height - evidence height exceeds
    [MaxAgeNumBlocks] or last block time - evidence time exceeds
    [MaxAgeDuration] x 1,000,000 ns; otherwise ([ev], false).  A peer
    without state gets (empty, true). *)
Theorem checkSend_age_filter (st : evidence.State) (id : N) (peerHeight : Z)
                             (ev : evidence.Evidence) :
  let params := evidence.ConsensusParams_Evidence st in
  let evHeight := evidence.ev_Height ev in
  let age_blocks := peerHeight - evHeight in
  let age_duration := evidence.LastBlockTime st - evidence.ev_Time ev in
  let max_age := evidence.MaxAgeDuration params * evidence.Millisecond in
  let r := evidence.checkSendEvidenceMessage st
             (evidence.mkPeer id (Some peerHeight)) ev in
  0 <= peerHeight < GoInt.two63 ->
  0 <= evHeight < GoInt.two63 ->
  GoInt.MinInt64 <= max_age <= GoInt.MaxInt64 ->
  (peerHeight < evHeight -> r = ([], true)) /\
  (evHeight <= peerHeight ->
   evidence.MaxAgeNumBlocks params < age_blocks \/ max_age < age_duration ->
   r = ([], false)) /\
  (evHeight <= peerHeight ->
   age_blocks <= evidence.MaxAgeNumBlocks params ->
   age_duration <= max_age ->
   r = ([ev], false)) /\
  evidence.checkSendEvidenceMessage st (evidence.mkPeer id None) ev = ([], true).
Proof.
  intros params evHeight age_blocks age_duration max_age r Hp He Hmax.
  assert (Hblocks : GoInt.sub64 (GoInt.to_int64 peerHeight)
                      (GoInt.to_int64 evHeight) = age_blocks).
  { unfold GoInt.sub64, GoInt.two63 in *.
    rewrite (to_int64_in_range peerHeight), (to_int64_in_range evHeight);
      [rewrite to_int64_in_range | |];
      unfold GoInt.MinInt64, GoInt.MaxInt64, GoInt.two63, age_blocks; lia. }
  assert (Hmul : GoInt.mul64
                   (GoInt.to_int64 (evidence.MaxAgeDuration params))
                   evidence.Millisecond = max_age).
  { unfold GoInt.mul64, max_age, evidence.Millisecond in *.
    unfold GoInt.MinInt64, GoInt.MaxInt64, GoInt.two63 in *.
    rewrite (to_int64_in_range (evidence.MaxAgeDuration params));
      [rewrite to_int64_in_range|];
      unfold GoInt.MinInt64, GoInt.MaxInt64, GoInt.two63; lia. }
  assert (Hdur : (max_age <? evidence.Time_Sub (evidence.LastBlockTime st)
                               (evidence.ev_Time ev))
                 = (max_age <? age_duration)).
  { apply Time_Sub_above.
    unfold max_age, evidence.Millisecond in *.
    unfold GoInt.MinInt64, GoInt.MaxInt64, GoInt.two63 in *. lia. }
  unfold r, evidence.checkSendEvidenceMessage.
  cbn [evidence.peer_GetHeight].
  fold params evHeight. rewrite Hblocks, Hmul, Hdur.
  repeat split.
  - intros Hlt. apply Z.ltb_lt in Hlt. rewrite Hlt. reflexivity.
  - intros Hge Hold.
    assert ((peerHeight <? evHeight) = false) as -> by (apply Z.ltb_ge; lia).
    destruct Hold as [Hb | Hd].
    + apply Z.ltb_lt in Hb. rewrite Hb. reflexivity.
    + apply Z.ltb_lt in Hd. rewrite Hd, orb_true_r. reflexivity.
  - intros Hge Hb Hd.
    assert ((peerHeight <? evHeight) = false) as -> by (apply Z.ltb_ge; lia).
    apply Z.ltb_ge in Hb, Hd. rewrite Hb, Hd. reflexivity.
Qed.

(** At most 100 blocks; evidence of height 10 for a peer at height 200,
    its age within 1 ms: skipped without retry. *)
Lemma checkSend_age_filter_witness :
  evidence.checkSendEvidenceMessage
    (evidence.mkState (evidence.mkEvidenceParams 100 1) 2000000)
    (evidence.mkPeer 7 (Some 200)) (evidence.mkEvidence 10 0 0) = ([], false).
Proof.
  refine (proj1 (proj2 (checkSend_age_filter
           (evidence.mkState (evidence.mkEvidenceParams 100 1) 2000000)
           7%N 200 (evidence.mkEvidence 10 0 0) _ _ _)) _ _);
    cbn; unfold GoInt.two63, GoInt.MinInt64, GoInt.MaxInt64, GoInt.two63,
           evidence.Millisecond; lia.
Defined.

(** C10.  [checkSendEvidenceMessage] returns (empty, true), (empty, false)
    or the one-element list of the evidence it was given with false: a
    list that is not empty never comes with retry = true. *)
Theorem checkSend_result_shapes (st : evidence.State) (peer : evidence.Peer)
                                (ev : evidence.Evidence) :
  let r := evidence.checkSendEvidenceMessage st peer ev in
  (r = ([], true) \/ r = ([], false) \/ r = ([ev], false)) /\
  (snd r = true -> fst r = []).
Proof.
  unfold evidence.checkSendEvidenceMessage.
  destruct (evidence.peer_GetHeight peer) as [peerHeight|]; cbn zeta.
  - destruct (peerHeight <? evidence.ev_Height ev).
    + split; [left; reflexivity | reflexivity].
    + break_if.
      * split; [right; left; reflexivity | reflexivity].
      * split; [right; right; reflexivity | discriminate].
  - split; [left; reflexivity | reflexivity].
Qed.

Section ReceiveProperties.

Context {Pool ProtoEvidence : Type}.
Variable AddEvidence : Pool -> evidence.Evidence -> Pool * option evidence.error.
Variable Unmarshal : list Z -> option (list ProtoEvidence).
Variable EvidenceFromProto : ProtoEvidence -> option evidence.Evidence.
Variable ValidateBasic : evidence.Evidence -> bool.

(** The loop stops at the first item that the pool finds invalid. *)
Lemma Receive_range_invalid src pre :
  forall r ev post,
    Forall (fun e => evidence.is_invalid e = false)
      (fst (evidence.add_all AddEvidence pre (evidence.evpool r))) ->
    evidence.is_invalid
      (snd (AddEvidence
              (snd (evidence.add_all AddEvidence pre (evidence.evpool r))) ev))
      = true ->
    evidence.Receive_range AddEvidence src (pre ++ ev :: post) r
    = evidence.mkReactor
        (fst (AddEvidence
                (snd (evidence.add_all AddEvidence pre (evidence.evpool r))) ev))
        (evidence.stopped r ++ [evidence.peer_ID src]).
Proof.
  induction pre as [|e pre IH]; intros r ev post Hpre Hev; simpl in *.
  - destruct (AddEvidence (evidence.evpool r) ev) as [pool' [[reason|code]|]];
      simpl in *; try discriminate. reflexivity.
  - destruct (AddEvidence (evidence.evpool r) e) as [pool' err] eqn:Hadd.
    destruct (evidence.add_all AddEvidence pre pool') as [errs pool''] eqn:Hall.
    simpl in *. inversion Hpre as [|? ? Herr Hrest]; subst.
    specialize (IH (evidence.mkReactor pool' (evidence.stopped r)) ev post).
    simpl in IH. rewrite Hall in IH. simpl in IH.
    destruct err as [[reason|code]|]; simpl in Herr; try discriminate;
      apply IH; assumption.
Qed.

(** Without an invalid item the loop adds every item. *)
Lemma Receive_range_valid src evis :
  forall r,
    Forall (fun e => evidence.is_invalid e = false)
      (fst (evidence.add_all AddEvidence evis (evidence.evpool r))) ->
    evidence.Receive_range AddEvidence src evis r
    = evidence.mkReactor
        (snd (evidence.add_all AddEvidence evis (evidence.evpool r)))
        (evidence.stopped r).
Proof.
  induction evis as [|e evis IH]; intros r Hall; simpl in *.
  - destruct r; reflexivity.
  - destruct (AddEvidence (evidence.evpool r) e) as [pool' err] eqn:Hadd.
    destruct (evidence.add_all AddEvidence evis pool') as [errs pool''] eqn:Hrest.
    simpl in *. inversion Hall as [|? ? Herr Herrs]; subst.
    specialize (IH (evidence.mkReactor pool' (evidence.stopped r))).
    simpl in IH. rewrite Hrest in IH. simpl in IH.
    destruct err as [[reason|code]|]; simpl in Herr; try discriminate;
      apply IH; assumption.
Qed.

(** C5.  [Receive] on a message that decodes to the batch [evis].
    (1) If the batch is [pre ++ ev :: post], [AddEvidence] answers
    nothing invalid for the items of [pre] added in turn, and answers
    [ErrEvidenceInvalid] for [ev]: the source peer is stopped, and the
    pool is the one left by adding [pre] and then [ev]; no item of
    [post] has been added.  (2) If [AddEvidence] answers success or
    another error for every item added in turn: every item has been
    added and no peer is stopped. *)
Theorem Receive_stops_at_invalid_evidence
    (chID : Z) (src : evidence.Peer) (msgBytes : list Z)
    (r : evidence.Reactor Pool) (evis : list evidence.Evidence) :
  evidence.decodeMsg Unmarshal EvidenceFromProto ValidateBasic msgBytes
    = Some evis ->
  let r' := evidence.Receive AddEvidence Unmarshal EvidenceFromProto
              ValidateBasic chID src msgBytes r in
  let added l := evidence.add_all AddEvidence l (evidence.evpool r) in
  (forall pre ev post,
      evis = pre ++ ev :: post ->
      Forall (fun e => evidence.is_invalid e = false) (fst (added pre)) ->
      evidence.is_invalid (snd (AddEvidence (snd (added pre)) ev)) = true ->
      evidence.stopped r' = evidence.stopped r ++ [evidence.peer_ID src] /\
      evidence.evpool r' = fst (AddEvidence (snd (added pre)) ev)) /\
  (Forall (fun e => evidence.is_invalid e = false) (fst (added evis)) ->
   evidence.stopped r' = evidence.stopped r /\
   evidence.evpool r' = snd (added evis)).
Proof.
  intros Hdec r' added. subst r'. unfold evidence.Receive. rewrite Hdec.
  split.
  - intros pre ev post -> Hpre Hev.
    rewrite (Receive_range_invalid src pre r ev post Hpre Hev).
    split; reflexivity.
  - intros Hall. rewrite (Receive_range_valid src evis r Hall).
    split; reflexivity.
Qed.

End ReceiveProperties.

(** A batch of four items over a pool that records what it is given: the
    third item is invalid, the peer is stopped and the fourth item never
    reaches the pool. *)
Lemma Receive_stops_at_invalid_evidence_witness :
  let r' := evidence.Receive evidence_props.list_pool_Add
              evidence_props.bytes_Unmarshal Some (fun _ => true)
              56 (evidence.mkPeer 7 (Some 5)) [0; 2; 1; 0]
              (evidence.mkReactor [] []) in
  evidence.stopped r' = [7%N] /\
  evidence.evpool r' = map evidence_props.evidence_of_body [0; 2; 1]%N.
Proof.
  refine (proj1 (Receive_stops_at_invalid_evidence
                   evidence_props.list_pool_Add
                   evidence_props.bytes_Unmarshal Some (fun _ => true)
                   56 (evidence.mkPeer 7 (Some 5)) [0; 2; 1; 0]
                   (evidence.mkReactor [] [])
                   (map evidence_props.evidence_of_body [0; 2; 1; 0]%N)
                   eq_refl)
                (map evidence_props.evidence_of_body [0; 2]%N)
                (evidence_props.evidence_of_body 1)
                [evidence_props.evidence_of_body 0] eq_refl _ eq_refl).
  repeat constructor.
Defined.

(* ===================================================================== *)
(** * Properties of the proposal type *)
(* ===================================================================== *)

(** C8.  No value that the [uint32] field [POLRound] can hold is -1, and
    no proposal of round 0 has its POL round below its round.
    [NewProposal] called for "no POL round" with the [uint32] conversion of
    -1 stores 4294967295, which is not below the round. *)
Theorem POLRound_cannot_hold_minus_one :
  (forall p, proposal.well_typed p ->
             0 <= proposal.POLRound p /\ proposal.POLRound p <> -1) /\
  (forall p, proposal.well_typed p -> proposal.Round p = 0 ->
             ~ (proposal.POLRound p < proposal.Round p)) /\
  (let p := proposal.NewProposal 1700000000 42 3 (GoInt.to_uint32 (-1))
              proposal.BlockID_zero in
   proposal.well_typed p /\
   proposal.POLRound p = 4294967295 /\
   ~ (proposal.POLRound p < proposal.Round p)).
Proof.
  split; [|split].
  - intros p (_ & _ & Hpol & _). unfold GoInt.is_uint32 in Hpol. lia.
  - intros p (_ & _ & Hpol & _) Hr. unfold GoInt.is_uint32 in Hpol. lia.
  - cbv zeta. split; [|split].
    + unfold proposal.well_typed, GoInt.is_uint64, GoInt.is_uint32,
        GoInt.two64, GoInt.two32. vm_compute. intuition discriminate.
    + reflexivity.
    + vm_compute. discriminate.
Qed.

(* ===================================================================== *)
(** * Properties of the header chain *)
(* ===================================================================== *)

Import blockchain blockchain_props.

(** ** Deleting from the store *)

Lemma db_Delete_canonical_None k db i :
  canonical_hash db !! i = None ->
  canonical_hash (db_Delete k db) !! i = None.
Proof.
  intros H. destruct k; simpl; try assumption.
  destruct (decide (height = i)) as [->|Hne].
  - apply lookup_delete_eq.
  - rewrite lookup_delete_ne; assumption.
Qed.

Lemma batch_Write_canonical_None batch :
  forall db i,
    canonical_hash db !! i = None ->
    canonical_hash (batch_Write batch db) !! i = None.
Proof.
  unfold batch_Write.
  induction batch as [|k batch IH]; intros db i H; simpl; [assumption|].
  apply IH, db_Delete_canonical_None, H.
Qed.

(** A canonical hash whose key is in the batch is gone after the write. *)
Lemma batch_Write_deletes_canonical batch :
  forall db i,
    In (canonicalKey i) batch ->
    canonical_hash (batch_Write batch db) !! i = None.
Proof.
  unfold batch_Write.
  induction batch as [|k batch IH]; intros db i Hin; simpl in *; [contradiction|].
  destruct Hin as [-> | Hin].
  - apply (batch_Write_canonical_None batch). simpl. apply lookup_delete_eq.
  - apply IH, Hin.
Qed.

(** A canonical hash whose key is not in the batch is kept by the write. *)
Lemma batch_Write_keeps_canonical batch :
  forall db i,
    ~ In (canonicalKey i) batch ->
    canonical_hash (batch_Write batch db) !! i = canonical_hash db !! i.
Proof.
  unfold batch_Write.
  induction batch as [|k batch IH]; intros db i Hnin; simpl in *; [reflexivity|].
  rewrite IH by tauto.
  destruct k; simpl; try reflexivity.
  apply lookup_delete_ne. intros ->. tauto.
Qed.

Lemma rollback_In n :
  forall i j, (N.of_nat n <= i)%N ->
    In (canonicalKey j) (rollback n i) <-> (i - N.of_nat n < j <= i)%N.
Proof.
  induction n as [|n IH]; intros i j Hle.
  - simpl. split; [contradiction | lia].
  - cbn [rollback DeleteCanonicalHash app]. simpl In.
    rewrite IH by lia. split.
    + intros [Heq | Hr]; [inversion Heq; lia | lia].
    + intros Hr. destruct (N.eq_dec i j) as [->|Hne]; [left; reflexivity | right; lia].
Qed.

(** The second loop deletes the canonical hashes of the heights above
    [head] up to [height], and no other. *)
Lemma canonical_rollback_In height head j :
  In (canonicalKey j) (canonical_rollback height head) <->
  (head < j <= height)%N.
Proof.
  unfold canonical_rollback.
  rewrite rollback_In by lia. lia.
Qed.

(** ** The header cache *)

Lemma find_remove_ne {V} (k k' : cmn.Hash) (l : list (cmn.Hash * V)) :
  k <> k' -> lru.find k' (lru.remove k l) = lru.find k' l.
Proof.
  intros Hne. induction l as [|[k0 v] l IH]; simpl; [reflexivity|].
  destruct (N.eqb_spec k k0) as [->|Hk].
  - rewrite IH. destruct (N.eqb_spec k' k0); [congruence | reflexivity].
  - simpl. rewrite IH. reflexivity.
Qed.

Lemma find_removelast {V} (k : cmn.Hash) (l : list (cmn.Hash * V)) x :
  lru.find k (removelast l) = Some x -> lru.find k l = Some x.
Proof.
  induction l as [|[k0 v] l IH]; simpl; [discriminate|].
  destruct l as [|p l'].
  - simpl. discriminate.
  - simpl lru.find at 1. destruct (N.eqb k k0); [trivial | exact IH].
Qed.

(** A hit leaves every lookup of the cache as it was. *)
Lemma Get_find {V} (k k' : cmn.Hash) (c c' : lru.Cache V) v :
  lru.Get k c = (Some v, c') ->
  lru.find k (lru.items c) = Some v /\
  lru.find k' (lru.items c') = lru.find k' (lru.items c).
Proof.
  unfold lru.Get. destruct (lru.find k (lru.items c)) as [v0|] eqn:Hf;
    intros Heq; inversion Heq; subst; clear Heq.
  split; [reflexivity|]. simpl.
  destruct (N.eqb_spec k' k) as [->|Hne]; [symmetry; exact Hf|].
  apply find_remove_ne. congruence.
Qed.

(** After [Add k v], a lookup finds [v] under [k] or what it found
    before. *)
Lemma Add_find {V} (k k' : cmn.Hash) (v x : V) (c : lru.Cache V) :
  lru.find k' (lru.items (lru.Add k v c)) = Some x ->
  (k' = k /\ x = v) \/ lru.find k' (lru.items c) = Some x.
Proof.
  unfold lru.Add. cbn [lru.items]. intros Hf.
  assert (Hl : lru.find k' ((k, v) :: lru.remove k (lru.items c)) = Some x).
  { destruct (_ <? _)%nat; [apply find_removelast|]; exact Hf. }
  simpl in Hl. destruct (N.eqb_spec k' k) as [->|Hne].
  - left. split; congruence.
  - right. rewrite find_remove_ne in Hl by congruence. exact Hl.
Qed.

(** ** GetHeader *)

Lemma GetHeader_frame hash height hc prev hc1 :
  GetHeader hash height hc = (prev, hc1) ->
  chainDb hc1 = chainDb hc /\ genesisHeader hc1 = genesisHeader hc /\
  currentHeader hc1 = currentHeader hc /\
  currentHeaderHash hc1 = currentHeaderHash hc /\
  heightCache hc1 = heightCache hc.
Proof.
  unfold GetHeader.
  destruct (lru.Get hash (headerCache hc)) as [[h|] c].
  - intros Heq; inversion Heq; subst. repeat split.
  - destruct (ReadHeader (chainDb hc) hash height);
      intros Heq; inversion Heq; subst; repeat split.
Qed.

(** What [GetHeader] returns was found under the hash, and afterwards
    nothing is found that was not found before. *)
Lemma GetHeader_found hash height hc prev hc1 :
  GetHeader hash height hc = (prev, hc1) ->
  (forall x, prev = Some x -> found hc hash x) /\
  (forall k x, found hc1 k x -> found hc k x).
Proof.
  unfold GetHeader, found.
  destruct (lru.Get hash (headerCache hc)) as [[h|] c] eqn:Hget.
  - intros Heq; inversion Heq; subst; clear Heq. split.
    + intros x Hx. inversion Hx; subst.
      left. apply (Get_find hash hash _ _ _ Hget).
    + intros k x. cbn [set_headerCache headerCache chainDb].
      rewrite (proj2 (Get_find hash k _ _ _ Hget)). trivial.
  - unfold ReadHeader.
    destruct (header (chainDb hc) !! (hash, height)) as [h|] eqn:Hdb;
      intros Heq; inversion Heq; subst; clear Heq.
    + split.
      * intros x Hx. inversion Hx; subst. right. eauto.
      * intros k x. cbn [set_headerCache headerCache chainDb].
        intros [Hc | Hd]; [|right; exact Hd].
        apply Add_find in Hc. destruct Hc as [[-> ->] | Hc]; [right; eauto | left; exact Hc].
    + split; [discriminate | trivial].
Qed.

(** One turn of the rewind loop keeps the chain descending and lowers the
    current header. *)
Lemma descending_step hc hdr prev hc1 :
  descending hc ->
  CurrentHeader hc = Some hdr ->
  (0 < Height hdr)%N ->
  GetHeader (LastCommitHash hdr) (Height hdr - 1)%N hc = (prev, hc1) ->
  descending (currentHeader_Store prev hc1) /\
  (entry_height (currentHeader_Store prev hc1) < Height hdr)%N.
Proof.
  intros Hdesc Hcur Hpos Hget.
  destruct (GetHeader_found _ _ _ _ _ Hget) as [Hprev Hfound].
  destruct (GetHeader_frame _ _ _ _ _ Hget) as (Hdb & _ & _ & _ & _).
  assert (Hknown_hdr : known hc hdr) by (left; exact Hcur).
  assert (Hfound' : forall k x, found (currentHeader_Store prev hc1) k x -> found hc k x).
  { intros k x Hf. apply Hfound. exact Hf. }
  assert (Hknown : forall x, known (currentHeader_Store prev hc1) x -> known hc x).
  { intros x [Hc | [[k Hc] | [k [n Hd]]]].
    - cbn in Hc. destruct (Hprev x Hc) as [Hf | [n Hf]];
        [right; left; eauto | right; right; eauto].
    - destruct (Hfound k x (or_introl Hc)) as [Hf | [n Hf]];
        [right; left; eauto | right; right; eauto].
    - right; right. exists k, n. cbn in Hd. rewrite Hdb in Hd. exact Hd. }
  split.
  - intros h x Hk Hf. apply Hdesc; auto.
  - unfold entry_height. cbn. destruct prev as [x|].
    + apply (Hdesc hdr x Hknown_hdr). apply Hprev. reflexivity.
    + exact Hpos.
Qed.

(** ** The rewind loop *)

(** When the loop ends, it has walked a list of headers as [rewinds]
    says and has put their deletions in the batch, in this order. *)
Lemma rewind_rewinds Header_Hash head delFn fuel :
  forall batch hc batch' hcL,
    rewind Header_Hash fuel head delFn batch hc = Some (batch', hcL) ->
    exists hdrs,
      rewinds head hc hdrs hcL /\
      Forall (fun hdr => (head < Height hdr)%N) hdrs /\
      batch' = batch ++ deletions Header_Hash delFn hdrs /\
      chainDb hcL = chainDb hc /\
      genesisHeader hcL = genesisHeader hc.
Proof.
  induction fuel as [|fuel IH]; intros batch hc batch' hcL Hrun;
    [discriminate|].
  cbn [rewind] in Hrun.
  destruct (CurrentHeader hc) as [hdr|] eqn:Hcur.
  - destruct (N.ltb_spec head (Height hdr)) as [Hlt|Hge].
    + destruct (GetHeader (LastCommitHash hdr) (Height hdr - 1)%N hc)
        as [prev hc1] eqn:Hget.
      apply IH in Hrun. destruct Hrun as (hdrs & Hw & Hall & Hb & Hdb & Hg).
      destruct (GetHeader_frame _ _ _ _ _ Hget) as (Hdb1 & Hg1 & _).
      exists (hdr :: hdrs). split; [|split; [|split; [|split]]].
      * eapply rewinds_step; eauto.
      * constructor; assumption.
      * rewrite Hb. cbn [deletions flat_map].
        destruct delFn; rewrite <- !app_assoc; reflexivity.
      * rewrite Hdb. exact Hdb1.
      * rewrite Hg. exact Hg1.
    + inversion Hrun; subst. exists []. cbn [deletions flat_map].
      rewrite app_nil_r.
      split; [eapply rewinds_low; eauto|]. split; [constructor|].
      repeat split.
  - inversion Hrun; subst. exists []. cbn [deletions flat_map].
    rewrite app_nil_r.
    split; [apply rewinds_nil; exact Hcur|]. split; [constructor|].
    repeat split.
Qed.

(** On a descending chain the loop ends as soon as the fuel exceeds the
    height of the current header. *)
Lemma rewind_terminates Header_Hash head delFn fuel :
  forall batch hc,
    descending hc ->
    (N.to_nat (entry_height hc) < fuel)%nat ->
    exists r, rewind Header_Hash fuel head delFn batch hc = Some r.
Proof.
  induction fuel as [|fuel IH]; intros batch hc Hdesc Hfuel; [lia|].
  cbn [rewind].
  destruct (CurrentHeader hc) as [hdr|] eqn:Hcur; [|eauto].
  destruct (N.ltb_spec head (Height hdr)) as [Hlt|Hge]; [|eauto].
  destruct (GetHeader (LastCommitHash hdr) (Height hdr - 1)%N hc)
    as [prev hc1] eqn:Hget.
  destruct (descending_step hc hdr prev hc1 Hdesc Hcur ltac:(lia) Hget)
    as [Hdesc' Hlower].
  apply IH; [exact Hdesc'|].
  unfold entry_height in Hfuel at 1. rewrite Hcur in Hfuel. lia.
Qed.

(** ** SetHead *)

(** C9.  The comment of [SetHead] says "Everything above the new head
    will be deleted", and so the canonical hash of every height above the
    new head should be gone when it returns.  It is not: the second loop,
    [for i := height; i > head; i--], starts at the height that the
    current header had on entry.  The store has headers and canonical
    hashes for the heights 0, 1 and 2 and the current header is the one of
    height 1; [SetHead(0, delFn)] returns, and the canonical hash of
    height 2, above the new head 0, is still in the store.  This is no
    state made up by hand: [NewHeaderChain] opens the chain so when the
    head block hash of the store is the hash of the header of height 1. *)
Theorem SetHead_keeps_canonical_hash_above_old_head :
  (exists hc',
      SetHead toy_Hash 3 0%N (Some delete_body) chain_at_1 = Done hc' /\
      (0 < 2)%N /\
      canonical_hash (chainDb chain_at_1) !! 2%N = Some 102%N /\
      canonical_hash (chainDb hc') !! 2%N = Some 102%N) /\
  (exists hc0 hc0',
      headerchain.NewHeaderChain toy_Hash db012 (toy_Hash header1)
      = headerchain.Created hc0 /\
      chainDb hc0 = db012 /\
      CurrentHeader hc0 = Some header1 /\
      SetHead toy_Hash 3 0%N (Some delete_body) hc0 = Done hc0' /\
      canonical_hash (chainDb hc0') !! 2%N = Some 102%N).
Proof.
  split.
  - eexists. split; [vm_compute; reflexivity|].
    split; [reflexivity|]. split; vm_compute; reflexivity.
  - eexists. eexists. split; [vm_compute; reflexivity|].
    split; [reflexivity|]. split; [reflexivity|].
    split; vm_compute; reflexivity.
Qed.

(** X21.  What [SetHead] does.  (1) Whenever [SetHead(head, delFn)] returns:
    the rewind loop has walked a list of headers, starting at the current
    header and following [LastCommitHash] through [GetHeader], every one
    of them above [head]; it has stopped at a header not above [head],
    which is then the current header, or at a lookup that returned nil, in
    which case the genesis header is the current header; the store is the
    old one after the deletions of the callback (when there is one) and of
    [DeleteHeader] for every walked header, in the order of the walk, and
    of the canonical hashes, with the hash of the current header as head
    header hash; no canonical hash is left for a height above [head] and
    up to the height that the current header had on entry; both caches
    are empty.  (2) On a chain whose heights decrease along
    [LastCommitHash] and that has a genesis header, [SetHead] does
    return. *)
Theorem SetHead_rewinds (Header_Hash : Header -> cmn.Hash) (head : N)
                        (delFn : option DeleteCallback) (hc : HeaderChain) :
  (forall fuel hc',
      SetHead Header_Hash fuel head delFn hc = Done hc' ->
      exists hdrs hcL cur,
        rewinds head hc hdrs hcL /\
        Forall (fun hdr => (head < Height hdr)%N) hdrs /\
        (CurrentHeader hcL = Some cur \/
         CurrentHeader hcL = None /\ genesisHeader hc = Some cur) /\
        CurrentHeader hc' = Some cur /\
        currentHeaderHash hc' = Header_Hash cur /\
        chainDb hc' =
          WriteHeadHeaderHash
            (batch_Write (deletions Header_Hash delFn hdrs
                            ++ canonical_rollback (entry_height hc) head)
                         (chainDb hc))
            (Header_Hash cur) /\
        head_header_hash (chainDb hc') = Some (Header_Hash cur) /\
        (forall i, (head < i <= entry_height hc)%N ->
                   canonical_hash (chainDb hc') !! i = None) /\
        lru.items (headerCache hc') = [] /\
        lru.items (heightCache hc') = []) /\
  (descending hc -> genesisHeader hc <> None ->
   exists fuel hc', SetHead Header_Hash fuel head delFn hc = Done hc').
Proof.
  split.
  - intros fuel hc' Hrun. unfold SetHead in Hrun.
    fold (entry_height hc) in Hrun.
    destruct (rewind Header_Hash fuel head delFn [] hc) as [[batch hcL]|] eqn:Hloop;
      [|discriminate].
    destruct (rewind_rewinds _ _ _ _ _ _ _ _ Hloop)
      as (hdrs & Hwalk & Hall & Hbatch & Hdb & Hgen).
    cbn [app] in Hbatch. subst batch.
    assert (Hcan : forall cur i, (head < i <= entry_height hc)%N ->
              canonical_hash
                (WriteHeadHeaderHash
                   (batch_Write (deletions Header_Hash delFn hdrs
                                   ++ canonical_rollback (entry_height hc) head)
                      (chainDb hc)) cur) !! i = None).
    { intros cur i Hi. cbn [WriteHeadHeaderHash canonical_hash].
      apply batch_Write_deletes_canonical, in_or_app. right.
      apply canonical_rollback_In, Hi. }
    cbn [purge_caches CurrentHeader currentHeader set_chainDb] in Hrun.
    destruct (currentHeader hcL) as [cur|] eqn:HcurL.
    + cbn in Hrun. rewrite HcurL in Hrun. inversion Hrun; subst hc'; clear Hrun.
      exists hdrs, hcL, cur. rewrite Hdb. cbn.
      repeat split; auto. exact (Hcan (Header_Hash cur)).
    + cbn in Hrun. destruct (genesisHeader hcL) as [g|] eqn:HgL; [|discriminate].
      inversion Hrun; subst hc'; clear Hrun.
      exists hdrs, hcL, g. rewrite Hdb, <- Hgen. cbn.
      repeat split; auto. exact (Hcan (Header_Hash g)).
  - intros Hdesc Hgen.
    destruct (rewind_terminates Header_Hash head delFn
                (S (N.to_nat (entry_height hc))) [] hc Hdesc ltac:(lia))
      as [[batch hcL] Hloop].
    exists (S (N.to_nat (entry_height hc))).
    destruct (rewind_rewinds _ _ _ _ _ _ _ _ Hloop) as (_ & _ & _ & _ & _ & HgL).
    unfold SetHead. rewrite Hloop.
    cbn [purge_caches CurrentHeader currentHeader set_chainDb].
    destruct (currentHeader hcL) as [cur|] eqn:HcurL.
    + cbn. rewrite HcurL. eauto.
    + cbn. destruct (genesisHeader hcL) as [g|] eqn:Hg; [eauto|].
      congruence.
Qed.

(** The three headers of [db012], by their keys. *)
Lemma db012_headers k n x :
  header db012 !! (k, n) = Some x ->
  (k = 100%N /\ x = header0) \/ (k = 101%N /\ x = header1) \/
  (k = 102%N /\ x = header2).
Proof.
  unfold db012. cbn [header]. intros H.
  repeat (apply lookup_insert_Some in H;
          destruct H as [[Hk Hx] | [_ H]];
          [inversion Hk; subst; auto |]).
  rewrite lookup_empty in H. discriminate.
Qed.

Lemma chain_at_2_descending : descending chain_at_2.
Proof.
  intros hdr x Hknown Hfound.
  assert (Hhdr : hdr = header0 \/ hdr = header1 \/ hdr = header2).
  { destruct Hknown as [Hc | [[k Hc] | [k [n Hd]]]].
    - inversion Hc. auto.
    - discriminate.
    - apply db012_headers in Hd. intuition. }
  destruct Hfound as [Hc | [n Hd]]; [discriminate|].
  apply db012_headers in Hd.
  destruct Hhdr as [-> | [-> | ->]];
    destruct Hd as [[Hk ->] | [[Hk ->] | [Hk ->]]];
    cbn in Hk; try discriminate; cbn; lia.
Qed.

(** [SetHead(0, delFn)] on the chain of three headers: it returns, and
    the current header is then the one hashing to 100. *)
Lemma SetHead_rewinds_witness :
  (exists hdrs hcL cur,
      rewinds 0 chain_at_2 hdrs hcL /\
      Forall (fun hdr => (0 < Height hdr)%N) hdrs /\
      (CurrentHeader hcL = Some cur \/
       CurrentHeader hcL = None /\ genesisHeader chain_at_2 = Some cur) /\
      toy_Hash cur = 100%N) /\
  (exists fuel hc',
      SetHead toy_Hash fuel 0%N (Some delete_body) chain_at_2 = Done hc').
Proof.
  pose proof (SetHead_rewinds toy_Hash 0%N (Some delete_body) chain_at_2)
    as [Hreturned Hreturns].
  split.
  - destruct (Hreturned 3%nat _ eq_refl)
      as (hdrs & hcL & cur & Hw & Hall & Hcur & _ & Hhash & _).
    exists hdrs, hcL, cur. rewrite <- Hhash. repeat split; assumption.
  - apply Hreturns; [exact chain_at_2_descending | discriminate].
Defined.

(* ===================================================================== *)
(** * Further properties of the evidence reactor *)
(* ===================================================================== *)

Section EvidenceCodec.

Context {Pool ProtoEvidence : Type}.
Variable AddEvidence : Pool -> evidence.Evidence -> Pool * option evidence.error.
Variable Unmarshal : list Z -> option (list ProtoEvidence).
Variable EvidenceFromProto : ProtoEvidence -> option evidence.Evidence.
Variable ValidateBasic : evidence.Evidence -> bool.
Variable EvidenceToProto : evidence.Evidence -> option ProtoEvidence.
Variable Marshal : list ProtoEvidence -> option (list Z).
Variable Send : list Z -> bool.

(** X16.  A message in which one item fails [ValidateBasic] does not
    decode, and a message that does not decode costs the peer its
    connection and leaves the pool untouched: no item of it is added,
    not even those in front of the bad one. *)
Theorem Receive_rejects_batch_with_bad_item
    (chID : Z) (src : evidence.Peer) (msgBytes : list Z)
    (r : evidence.Reactor Pool) :
  let r' := evidence.Receive AddEvidence Unmarshal EvidenceFromProto
              ValidateBasic chID src msgBytes r in
  (forall lm evis ev,
      Unmarshal msgBytes = Some lm ->
      evidence.fromProto_all EvidenceFromProto lm = Some evis ->
      In ev evis -> ValidateBasic ev = false ->
      evidence.decodeMsg Unmarshal EvidenceFromProto ValidateBasic msgBytes
      = None) /\
  (evidence.decodeMsg Unmarshal EvidenceFromProto ValidateBasic msgBytes
   = None ->
   evidence.evpool r' = evidence.evpool r /\
   evidence.stopped r' = evidence.stopped r ++ [evidence.peer_ID src]).
Proof.
  cbv zeta. split.
  - intros lm evis ev Hun Hfrom Hin Hbad.
    unfold evidence.decodeMsg. rewrite Hun, Hfrom.
    destruct (forallb ValidateBasic evis) eqn:Hall; [|reflexivity].
    rewrite forallb_forall in Hall. rewrite (Hall ev Hin) in Hbad.
    discriminate.
  - intros Hdec. unfold evidence.Receive. rewrite Hdec.
    split; reflexivity.
Qed.

(** The loop of [Receive] stops the source peer at most once and never
    another peer. *)
Lemma Receive_range_stopped src evis :
  forall r,
    let r' := evidence.Receive_range AddEvidence src evis r in
    evidence.stopped r' = evidence.stopped r \/
    evidence.stopped r' = evidence.stopped r ++ [evidence.peer_ID src].
Proof.
  induction evis as [|ev evis IH]; intros r; cbn; [left; reflexivity|].
  destruct (AddEvidence (evidence.evpool r) ev) as [pool' [[reason|code]|]].
  - right. reflexivity.
  - apply (IH (evidence.mkReactor pool' (evidence.stopped r))).
  - apply (IH (evidence.mkReactor pool' (evidence.stopped r))).
Qed.

(** X17.  Whatever the message, [Receive] stops at most one peer, the
    source of the message, and at most once. *)
Theorem Receive_stops_only_source
    (chID : Z) (src : evidence.Peer) (msgBytes : list Z)
    (r : evidence.Reactor Pool) :
  let r' := evidence.Receive AddEvidence Unmarshal EvidenceFromProto
              ValidateBasic chID src msgBytes r in
  evidence.stopped r' = evidence.stopped r \/
  evidence.stopped r' = evidence.stopped r ++ [evidence.peer_ID src].
Proof.
  cbv zeta. unfold evidence.Receive.
  destruct (evidence.decodeMsg Unmarshal EvidenceFromProto ValidateBasic
              msgBytes) as [evis|].
  - apply Receive_range_stopped.
  - right. reflexivity.
Qed.

Lemma fromProto_toProto_all :
  (forall ev p, EvidenceToProto ev = Some p -> EvidenceFromProto p = Some ev) ->
  forall evis evi,
    evidence_gossip.toProto_all EvidenceToProto evis = Some evi ->
    evidence.fromProto_all EvidenceFromProto evi = Some evis.
Proof.
  intros Hinv. induction evis as [|ev evis IH]; intros evi Hto; cbn in Hto.
  - inversion Hto. reflexivity.
  - destruct (EvidenceToProto ev) as [p|] eqn:Hp; [|discriminate].
    destruct (evidence_gossip.toProto_all EvidenceToProto evis) as [ps|];
      [|discriminate].
    inversion Hto; subst. cbn. rewrite (Hinv ev p Hp), (IH ps eq_refl).
    reflexivity.
Qed.

(** X18.  With conversions that undo each other ([Unmarshal] after
    [Marshal], [EvidenceFromProto] after [EvidenceToProto]), a batch that
    [encodeMsg] has encoded is decoded by [decodeMsg] to the same batch,
    in the same order, when every item passes [ValidateBasic], and is
    refused as a whole otherwise. *)
Theorem decodeMsg_encodeMsg
    (evis : list evidence.Evidence) (msgBytes : list Z) :
  (forall l bz, Marshal l = Some bz -> Unmarshal bz = Some l) ->
  (forall ev p, EvidenceToProto ev = Some p -> EvidenceFromProto p = Some ev) ->
  evidence_gossip.encodeMsg EvidenceToProto Marshal evis = Some msgBytes ->
  evidence.decodeMsg Unmarshal EvidenceFromProto ValidateBasic msgBytes
  = if forallb ValidateBasic evis then Some evis else None.
Proof.
  intros Hmarshal Hproto Henc. unfold evidence_gossip.encodeMsg in Henc.
  destruct (evidence_gossip.toProto_all EvidenceToProto evis) as [evi|] eqn:Hto;
    [|discriminate].
  unfold evidence.decodeMsg.
  rewrite (Hmarshal evi msgBytes Henc).
  rewrite (fromProto_toProto_all Hproto evis evi Hto). reflexivity.
Qed.

(** X19.  One pass of the broadcast loop over a piece of evidence:
    something is handed to [Send] (or the encoding panics) only for a
    peer that has a state and is not below the evidence's height, and it
    is the encoding of that one piece of evidence; a [Send] that fails
    is tried again after the sleep, as is a peer that has no state or is
    behind, for which nothing is sent. *)
Theorem broadcast_evidence_cases
    (st : evidence.State) (peer : evidence.Peer) (ev : evidence.Evidence) :
  match evidence_gossip.broadcast_evidence EvidenceToProto Marshal Send
          st peer ev with
  | evidence_gossip.EncodePanic =>
      evidence_gossip_props.not_behind peer ev /\
      evidence_gossip.encodeMsg EvidenceToProto Marshal [ev] = None
  | evidence_gossip.SleepAndRetry (Some msgBytes) =>
      evidence_gossip_props.not_behind peer ev /\
      evidence_gossip.encodeMsg EvidenceToProto Marshal [ev] = Some msgBytes /\
      Send msgBytes = false
  | evidence_gossip.WaitForNext (Some msgBytes) =>
      evidence_gossip_props.not_behind peer ev /\
      evidence_gossip.encodeMsg EvidenceToProto Marshal [ev] = Some msgBytes /\
      Send msgBytes = true
  | evidence_gossip.SleepAndRetry None =>
      evidence_gossip_props.not_ready peer ev
  | evidence_gossip.WaitForNext None =>
      evidence_gossip_props.not_behind peer ev
  end.
Proof.
  unfold evidence_gossip.broadcast_evidence, evidence.checkSendEvidenceMessage,
    evidence_gossip_props.not_behind, evidence_gossip_props.not_ready.
  destruct (evidence.peer_GetHeight peer) as [peerHeight|]; [|left; reflexivity].
  destruct (Z.ltb_spec peerHeight (evidence.ev_Height ev)) as [Hlt|Hge].
  - right. exists peerHeight. split; [reflexivity | exact Hlt].
  - assert (Hok : exists h, Some peerHeight = Some h /\ evidence.ev_Height ev <= h)
      by (exists peerHeight; split; [reflexivity | exact Hge]).
    destruct (_ || _); [exact Hok|].
    destruct (evidence_gossip.encodeMsg EvidenceToProto Marshal [ev])
      as [msgBytes|] eqn:Henc.
    + cbv zeta. destruct (Send msgBytes) eqn:Hsend; cbn;
        (split; [exact Hok | split; [reflexivity | reflexivity || exact Hsend]]).
    + split; [exact Hok | reflexivity].
Qed.

End EvidenceCodec.

(** A batch of two pieces of evidence, of heights 5 and 7, goes through
    [encodeMsg] and [decodeMsg] unchanged. *)
Lemma decodeMsg_encodeMsg_witness :
  evidence.decodeMsg Some evidence_gossip_props.height_FromProto
    (fun ev => 0 <? evidence.ev_Height ev) [5; 7]
  = Some [evidence.mkEvidence 5 0 0; evidence.mkEvidence 7 0 0].
Proof.
  refine (decodeMsg_encodeMsg Some evidence_gossip_props.height_FromProto
            (fun ev => 0 <? evidence.ev_Height ev)
            evidence_gossip_props.height_ToProto Some
            [evidence.mkEvidence 5 0 0; evidence.mkEvidence 7 0 0] [5; 7]
            _ _ eq_refl).
  - intros l bz H. exact (eq_sym H).
  - intros [h t b] p. unfold evidence_gossip_props.height_ToProto,
      evidence_gossip_props.height_FromProto. cbn.
    destruct (Z.eqb_spec t 0) as [->|]; [|discriminate].
    destruct (N.eqb_spec b 0) as [->|]; [|discriminate].
    cbn. intros H. inversion H. reflexivity.
Defined.

(* ===================================================================== *)
(** * The equality of the RLP test values *)
(* ===================================================================== *)

Lemma Equal_eq (x y : option rlp.Simple) :
  rlp.Equal x y = true <-> x = y.
Proof.
  destruct x as [[x1 x2]|], y as [[y1 y2]|]; cbn;
    try (split; [discriminate | discriminate]); [|tauto].
  rewrite andb_true_iff, !Z.eqb_eq. split.
  - intros [-> ->]. reflexivity.
  - intros H. inversion H. split; reflexivity.
Qed.

Lemma Equal_loop_eq (xs : list (option rlp.Simple)) :
  forall ys, length xs = length ys ->
    (rlp.Equal_loop xs ys = true <-> xs = ys).
Proof.
  induction xs as [|x xs IH]; intros [|y ys] Hlen; cbn in *; try discriminate.
  - tauto.
  - destruct (rlp.Equal x y) eqn:He; cbn.
    + apply Equal_eq in He. subst y. rewrite (IH ys) by congruence.
      split; [intros ->; reflexivity | intros H; inversion H; reflexivity].
    + split; [discriminate|]. intros H. inversion H; subst.
      assert (rlp.Equal y y = true) by (apply Equal_eq; reflexivity).
      congruence.
Qed.

(** X20.  [SimpleSet.Equal] decides equality of the two sets: it is true
    exactly when the slices have the same length and, index by index, the
    two pointers are both nil or point to values with the same [X] and
    [Y]. *)
Theorem SimpleSet_Equal_eq (x y : rlp.SimpleSet) :
  rlp.SimpleSet_Equal x y = true <-> x = y.
Proof.
  destruct x as [xs], y as [ys]. unfold rlp.SimpleSet_Equal. cbn.
  destruct (Nat.eqb_spec (length xs) (length ys)) as [Hlen|Hlen]; cbn.
  - rewrite (Equal_loop_eq xs ys Hlen).
    split; [intros ->; reflexivity | intros H; inversion H; reflexivity].
  - split; [discriminate|]. intros H. inversion H; subst. congruence.
Qed.

(* ===================================================================== *)
(** * Further properties of the header chain *)
(* ===================================================================== *)

Import headerchain headerchain_props.

(** ** Looking headers up *)

Lemma find_Add_same {V} (k : cmn.Hash) (v : V) (c : lru.Cache V) :
  (0 < lru.size c)%nat ->
  lru.find k (lru.items (lru.Add k v c)) = Some v.
Proof.
  intros Hsize. unfold lru.Add. cbn [lru.items].
  destruct (lru.remove k (lru.items c)) as [|p l] eqn:Hrem.
  - cbn [length]. destruct (Nat.ltb_spec (lru.size c) 1); [lia|].
    simpl. rewrite N.eqb_refl. reflexivity.
  - destruct (_ <? _)%nat; simpl; rewrite N.eqb_refl; reflexivity.
Qed.

Lemma Add_size {V} (k : cmn.Hash) (v : V) (c : lru.Cache V) :
  lru.size (lru.Add k v c) = lru.size c.
Proof. reflexivity. Qed.

(** What [GetHeader] has returned is then in the header cache. *)
Lemma GetHeader_caches hash height hc x hc1 :
  (0 < lru.size (headerCache hc))%nat ->
  GetHeader hash height hc = (Some x, hc1) ->
  lru.find hash (lru.items (headerCache hc1)) = Some x.
Proof.
  intros Hsize. unfold GetHeader.
  destruct (lru.Get hash (headerCache hc)) as [[h|] c] eqn:Hget.
  - intros Heq; inversion Heq; subst; clear Heq. cbn.
    unfold lru.Get in Hget.
    destruct (lru.find hash (lru.items (headerCache hc))); inversion Hget; subst.
    simpl. rewrite N.eqb_refl. reflexivity.
  - destruct (ReadHeader (chainDb hc) hash height) as [h|];
      intros Heq; inversion Heq; subst; clear Heq.
    cbn. apply find_Add_same, Hsize.
Qed.

Lemma GetHeader_hit hash height hc x :
  lru.find hash (lru.items (headerCache hc)) = Some x ->
  fst (GetHeader hash height hc) = Some x.
Proof.
  intros Hf. unfold GetHeader, lru.Get. rewrite Hf. reflexivity.
Qed.

(** X1.  The header cache is keyed by the hash alone and is not told of
    changes of the store: once [GetHeader(hash, height)] has returned a
    header (the cache having room for an entry), [GetHeader(hash, height')]
    returns this header for every height, whatever the store holds by
    then. *)
Theorem GetHeader_answers_from_cache
    (hash : cmn.Hash) (height : N) (hc hc1 : HeaderChain) (x : Header) :
  (0 < lru.size (headerCache hc))%nat ->
  GetHeader hash height hc = (Some x, hc1) ->
  forall (height' : N) (db' : Database),
    fst (GetHeader hash height' (set_chainDb db' hc1)) = Some x.
Proof.
  intros Hsize Hget height' db'.
  apply GetHeader_hit. cbn [set_chainDb headerCache].
  exact (GetHeader_caches hash height hc x hc1 Hsize Hget).
Qed.

(** The second lookup of the header of height 1, now asked for at height
    9 in a store that has lost every header. *)
Lemma GetHeader_answers_from_cache_witness :
  fst (GetHeader 101%N 9%N
         (set_chainDb (mkDatabase ∅ ∅ ∅ None ∅)
            (snd (GetHeader 101%N 1%N chain_at_2)))) = Some header1.
Proof.
  refine (GetHeader_answers_from_cache 101%N 1%N chain_at_2
            (snd (GetHeader 101%N 1%N chain_at_2)) header1 _ _ 9%N
            (mkDatabase ∅ ∅ ∅ None ∅)).
  - cbn. unfold headerCacheLimit. lia.
  - vm_compute. reflexivity.
Defined.

(** X2.  [GetHeader] returns nil exactly when the hash is not in the
    header cache and the store has no header under (hash, height); the
    header chain is then left as it was.  In no case does [GetHeader]
    change the store. *)
Theorem GetHeader_miss (hash : cmn.Hash) (height : N) (hc : HeaderChain) :
  (fst (GetHeader hash height hc) = None <->
   lru.find hash (lru.items (headerCache hc)) = None /\
   header (chainDb hc) !! (hash, height) = None) /\
  (fst (GetHeader hash height hc) = None -> snd (GetHeader hash height hc) = hc) /\
  chainDb (snd (GetHeader hash height hc)) = chainDb hc.
Proof.
  unfold GetHeader, lru.Get, ReadHeader.
  destruct (lru.find hash (lru.items (headerCache hc))) as [x|] eqn:Hf.
  - cbn. repeat split; try discriminate. intros [H _]. discriminate.
  - destruct (header (chainDb hc) !! (hash, height)) as [x|] eqn:Hdb; cbn.
    + repeat split; try discriminate. intros [_ H]. discriminate.
    + repeat split.
Qed.

(** ** What [SetHead] leaves *)

(** The loop ends at no header or at a header that is not above [head]. *)
Lemma rewinds_end head hc hdrs hcL :
  rewinds head hc hdrs hcL ->
  CurrentHeader hcL = None \/
  exists cur, CurrentHeader hcL = Some cur /\ (Height cur <= head)%N.
Proof.
  induction 1; eauto.
Qed.

(** The chain that a returned [SetHead] leaves, field by field. *)
Lemma SetHead_Done_inv Header_Hash fuel head delFn hc hc' :
  SetHead Header_Hash fuel head delFn hc = Done hc' ->
  exists hdrs hcL cur,
    rewinds head hc hdrs hcL /\
    Forall (fun hdr => (head < Height hdr)%N) hdrs /\
    (CurrentHeader hcL = Some cur \/
     CurrentHeader hcL = None /\ genesisHeader hc = Some cur) /\
    hc' = mkHeaderChain
            (WriteHeadHeaderHash
               (batch_Write (deletions Header_Hash delFn hdrs
                               ++ canonical_rollback (entry_height hc) head)
                            (chainDb hc))
               (Header_Hash cur))
            (genesisHeader hc) (Some cur) (Header_Hash cur)
            (lru.Purge (headerCache hcL)) (lru.Purge (heightCache hcL)).
Proof.
  intros Hrun. unfold SetHead in Hrun. fold (entry_height hc) in Hrun.
  destruct (rewind Header_Hash fuel head delFn [] hc) as [[batch hcL]|] eqn:Hloop;
    [|discriminate].
  destruct (rewind_rewinds _ _ _ _ _ _ _ _ Hloop)
    as (hdrs & Hwalk & Hall & Hbatch & Hdb & Hgen).
  cbn [app] in Hbatch. subst batch.
  cbn [purge_caches CurrentHeader currentHeader set_chainDb] in Hrun.
  destruct (currentHeader hcL) as [cur|] eqn:HcurL.
  - cbn in Hrun. rewrite HcurL in Hrun. inversion Hrun; subst hc'; clear Hrun.
    exists hdrs, hcL, cur.
    unfold set_chainDb, set_currentHeaderHash, purge_caches. cbn.
    rewrite Hdb, Hgen, HcurL. auto.
  - cbn in Hrun. destruct (genesisHeader hcL) as [g|] eqn:HgL; [|discriminate].
    inversion Hrun; subst hc'; clear Hrun.
    exists hdrs, hcL, g.
    unfold set_chainDb, set_currentHeaderHash, purge_caches,
      currentHeader_Store. cbn.
    rewrite Hdb, ?HgL. rewrite Hgen in HgL. rewrite ?HgL.
    split; [assumption|]. split; [assumption|].
    split; [right; split; [exact HcurL | congruence] | congruence].
Qed.

(** X3.  When [SetHead(head, delFn)] returns, the chain has a current
    header, and it is a header of height at most [head] or the genesis
    header; [currentHeaderHash] and the stored head header hash are its
    hash, and the genesis header is the one of before. *)
Theorem SetHead_current_not_above_head
    (Header_Hash : Header -> cmn.Hash) (fuel : nat) (head : N)
    (delFn : option DeleteCallback) (hc hc' : HeaderChain) :
  SetHead Header_Hash fuel head delFn hc = Done hc' ->
  exists cur,
    CurrentHeader hc' = Some cur /\
    ((Height cur <= head)%N \/ genesisHeader hc = Some cur) /\
    currentHeaderHash hc' = Header_Hash cur /\
    head_header_hash (chainDb hc') = Some (Header_Hash cur) /\
    genesisHeader hc' = genesisHeader hc.
Proof.
  intros Hrun.
  destruct (SetHead_Done_inv _ _ _ _ _ _ Hrun)
    as (hdrs & hcL & cur & Hwalk & _ & Hcur & ->).
  exists cur. cbn. repeat split.
  destruct Hcur as [Hc | [_ Hg]]; [|right; exact Hg].
  destruct (rewinds_end _ _ _ _ Hwalk) as [Hn | (c & Hc' & Hle)]; [congruence|].
  left. congruence.
Qed.

(** [SetHead(0, delFn)] on the chain of three headers. *)
Lemma SetHead_current_not_above_head_witness :
  exists hc' cur,
    SetHead toy_Hash 3 0%N (Some delete_body) chain_at_2 = Done hc' /\
    CurrentHeader hc' = Some cur /\
    ((Height cur <= 0)%N \/ genesisHeader chain_at_2 = Some cur).
Proof.
  assert (exists hc', SetHead toy_Hash 3 0%N (Some delete_body) chain_at_2
                      = Done hc') as [hc' Hrun]
    by (eexists; vm_compute; reflexivity).
  destruct (SetHead_current_not_above_head toy_Hash 3 0%N (Some delete_body)
              chain_at_2 hc' Hrun) as (cur & Hc & Hle & _).
  exists hc', cur. split; [exact Hrun|]. split; [exact Hc | exact Hle].
Defined.

(** X4.  After [SetHead(head, delFn)] has returned, [GetHeaderByHeight]
    finds no header at any height above [head] up to the height that the
    current header had on entry, and leaves the chain as it is. *)
Theorem GetHeaderByHeight_after_SetHead
    (Header_Hash : Header -> cmn.Hash) (fuel : nat) (head : N)
    (delFn : option DeleteCallback) (hc hc' : HeaderChain) (i : N) :
  SetHead Header_Hash fuel head delFn hc = Done hc' ->
  (head < i <= entry_height hc)%N ->
  GetHeaderByHeight i hc' = (None, hc').
Proof.
  intros Hrun Hi.
  destruct (SetHead_Done_inv _ _ _ _ _ _ Hrun)
    as (hdrs & hcL & cur & _ & _ & _ & ->).
  unfold GetHeaderByHeight, ReadCanonicalHash.
  cbn [chainDb WriteHeadHeaderHash canonical_hash].
  rewrite batch_Write_deletes_canonical; [reflexivity|].
  apply in_or_app. right. apply canonical_rollback_In, Hi.
Qed.

(** Height 2 after [SetHead(0, delFn)] on the chain of three headers. *)
Lemma GetHeaderByHeight_after_SetHead_witness :
  exists hc',
    SetHead toy_Hash 3 0%N (Some delete_body) chain_at_2 = Done hc' /\
    GetHeaderByHeight 2%N hc' = (None, hc').
Proof.
  assert (exists hc', SetHead toy_Hash 3 0%N (Some delete_body) chain_at_2
                      = Done hc') as [hc' Hrun]
    by (eexists; vm_compute; reflexivity).
  exists hc'. split; [exact Hrun|].
  apply (GetHeaderByHeight_after_SetHead toy_Hash 3 0%N (Some delete_body)
           chain_at_2 hc' 2%N Hrun).
  cbn. lia.
Defined.

(** X5.  [SetHead(head, delFn)] on a chain whose current header is not
    above [head] deletes nothing and does not call the callback: it
    returns the chain with the same store but for the head header hash,
    now the hash of the current header, and with purged caches. *)
Theorem SetHead_at_or_above_current
    (Header_Hash : Header -> cmn.Hash) (fuel : nat) (head : N)
    (delFn : option DeleteCallback) (hc : HeaderChain) (cur : Header) :
  CurrentHeader hc = Some cur ->
  (Height cur <= head)%N ->
  SetHead Header_Hash (S fuel) head delFn hc =
  Done (mkHeaderChain
          (WriteHeadHeaderHash (chainDb hc) (Header_Hash cur))
          (genesisHeader hc) (Some cur) (Header_Hash cur)
          (lru.Purge (headerCache hc)) (lru.Purge (heightCache hc))).
Proof.
  intros Hcur Hle. unfold SetHead. cbn [rewind]. rewrite Hcur.
  destruct (N.ltb_spec head (Height cur)) as [Hlt|_]; [lia|].
  unfold canonical_rollback.
  replace (N.to_nat (Height cur - head)) with 0%nat by lia.
  unfold CurrentHeader in *.
  unfold purge_caches, set_chainDb, set_currentHeaderHash. cbn.
  rewrite Hcur. reflexivity.
Qed.

(** [SetHead(2, delFn)] on the chain whose current header has height 1. *)
Lemma SetHead_at_or_above_current_witness :
  SetHead toy_Hash 1 2%N (Some delete_body) chain_at_1 =
  Done (mkHeaderChain
          (WriteHeadHeaderHash (chainDb chain_at_1) (toy_Hash header1))
          (genesisHeader chain_at_1) (Some header1) (toy_Hash header1)
          (lru.Purge (headerCache chain_at_1))
          (lru.Purge (heightCache chain_at_1))).
Proof.
  apply (SetHead_at_or_above_current toy_Hash 0 2%N (Some delete_body)
           chain_at_1 header1); [reflexivity | cbn; lia].
Defined.

Lemma batch_Write_keeps_header batch :
  forall db k n,
    ~ In (headerKey k n) batch ->
    header (batch_Write batch db) !! (k, n) = header db !! (k, n).
Proof.
  unfold batch_Write.
  induction batch as [|key batch IH]; intros db k n Hnin; simpl in *; [reflexivity|].
  rewrite IH by tauto.
  destruct key; simpl; try reflexivity.
  apply lookup_delete_ne. intros Heq. inversion Heq; subst. tauto.
Qed.

Lemma deletions_above Header_Hash head delFn hdrs :
  (forall f, delFn = Some f -> spares head f) ->
  Forall (fun hdr => (head < Height hdr)%N) hdrs ->
  forall k, In k (deletions Header_Hash delFn hdrs) -> key_above head k.
Proof.
  intros Hsp Hall k Hin. unfold deletions in Hin.
  apply in_flat_map in Hin. destruct Hin as (hdr & Hhdr & Hk).
  rewrite Forall_forall in Hall. apply list_elem_of_In in Hhdr.
  pose proof (Hall hdr Hhdr) as Hlt.
  apply in_app_or in Hk. destruct Hk as [Hk | Hk].
  - destruct delFn as [f|]; [|contradiction].
    exact (Hsp f eq_refl _ _ _ Hlt Hk).
  - simpl in Hk. destruct Hk as [<- | [<- | []]]; simpl; auto.
Qed.

Lemma rollback_canonical n :
  forall i k, In k (rollback n i) -> exists j, k = canonicalKey j.
Proof.
  induction n as [|n IH]; intros i k Hin; simpl in Hin; [contradiction|].
  destruct Hin as [<- | Hin]; eauto.
Qed.

(** X6.  [SetHead(head, delFn)], with no callback or with one that
    spares the heights up to [head], leaves in the store every header and
    every canonical hash of a height up to [head]. *)
Theorem SetHead_keeps_heights_up_to_head
    (Header_Hash : Header -> cmn.Hash) (fuel : nat) (head : N)
    (delFn : option DeleteCallback) (hc hc' : HeaderChain) :
  SetHead Header_Hash fuel head delFn hc = Done hc' ->
  (forall f, delFn = Some f -> spares head f) ->
  forall n, (n <= head)%N ->
    (forall k, header (chainDb hc') !! (k, n) = header (chainDb hc) !! (k, n)) /\
    canonical_hash (chainDb hc') !! n = canonical_hash (chainDb hc) !! n.
Proof.
  intros Hrun Hsp n Hn.
  destruct (SetHead_Done_inv _ _ _ _ _ _ Hrun)
    as (hdrs & hcL & cur & _ & Hall & _ & ->).
  cbn [chainDb WriteHeadHeaderHash header canonical_hash].
  assert (Hkeys : forall k,
             In k (deletions Header_Hash delFn hdrs
                     ++ canonical_rollback (entry_height hc) head) ->
             key_above head k).
  { intros k Hin. apply in_app_or in Hin. destruct Hin as [Hin | Hin].
    - eapply deletions_above; eauto.
    - destruct k; simpl; auto.
      + apply canonical_rollback_In in Hin. lia.
      + apply rollback_canonical in Hin. destruct Hin as [j Hj]. discriminate. }
  split.
  - intros k. apply batch_Write_keeps_header.
    intros Hin. apply Hkeys in Hin. simpl in Hin. lia.
  - apply batch_Write_keeps_canonical.
    intros Hin. apply Hkeys in Hin. simpl in Hin. lia.
Qed.

Lemma delete_body_spares head : spares head delete_body.
Proof.
  intros hash height k _ Hin. simpl in Hin.
  destruct Hin as [<- | []]. exact I.
Qed.

(** The genesis header after [SetHead(0, delFn)] on the chain of three
    headers. *)
Lemma SetHead_keeps_heights_up_to_head_witness :
  exists hc',
    SetHead toy_Hash 3 0%N (Some delete_body) chain_at_2 = Done hc' /\
    header (chainDb hc') !! (100%N, 0%N) = Some header0 /\
    canonical_hash (chainDb hc') !! 0%N = Some 100%N.
Proof.
  assert (exists hc', SetHead toy_Hash 3 0%N (Some delete_body) chain_at_2
                      = Done hc') as [hc' Hrun]
    by (eexists; vm_compute; reflexivity).
  exists hc'. split; [exact Hrun|].
  destruct (SetHead_keeps_heights_up_to_head toy_Hash 3 0%N
              (Some delete_body) chain_at_2 hc' Hrun
              (fun f Hf => match Hf in _ = o
                                 return match o with
                                        | Some g => spares 0 g
                                        | None => True
                                        end
                           with eq_refl => delete_body_spares 0%N end)
              0%N (N.le_refl 0)) as [Hh Hc].
  split; [rewrite Hh; reflexivity | exact (eq_trans Hc eq_refl)].
Defined.

(** ** Creating the header chain *)

(** Where a header returned by [GetHeader] comes from. *)
Lemma GetHeader_Some hash height hc x :
  fst (GetHeader hash height hc) = Some x ->
  lru.find hash (lru.items (headerCache hc)) = Some x \/
  header (chainDb hc) !! (hash, height) = Some x.
Proof.
  unfold GetHeader, lru.Get, ReadHeader.
  destruct (lru.find hash (lru.items (headerCache hc))) as [y|]; cbn.
  - intros H. left. exact H.
  - destruct (header (chainDb hc) !! (hash, height)); cbn; intros H;
      [right; exact H | discriminate].
Qed.

Lemma SetHead_not_HashOfNil Header_Hash fuel head delFn hc g :
  genesisHeader hc = Some g ->
  SetHead Header_Hash fuel head delFn hc <> HashOfNil.
Proof.
  intros Hg. unfold SetHead.
  destruct (rewind Header_Hash fuel head delFn [] hc) as [[batch hcL]|] eqn:Hloop;
    [|discriminate].
  destruct (rewind_rewinds _ _ _ _ _ _ _ _ Hloop) as (_ & _ & _ & _ & _ & HgL).
  unfold purge_caches, set_chainDb, CurrentHeader, currentHeader_Store. cbn.
  destruct (currentHeader hcL); cbn; [discriminate|].
  rewrite HgL, Hg. discriminate.
Qed.

Lemma GetBlockHeight_frame hash hc :
  chainDb (snd (GetBlockHeight hash hc)) = chainDb hc /\
  genesisHeader (snd (GetBlockHeight hash hc)) = genesisHeader hc /\
  currentHeader (snd (GetBlockHeight hash hc)) = currentHeader hc /\
  headerCache (snd (GetBlockHeight hash hc)) = headerCache hc.
Proof.
  unfold GetBlockHeight.
  destruct (lru.Get hash (heightCache hc)) as [[n|] c]; [repeat split|].
  destruct (ReadHeaderHeight (chainDb hc) hash); repeat split.
Qed.

(** X7.  [NewHeaderChain] fails with [ErrNoGenesis] exactly when the
    store has no canonical hash for height 0 (or the zero hash) or no
    header under it.  The chain it returns otherwise is over the given
    store, its genesis header is that header, it has a current header,
    which is the genesis header or the header stored for the head block
    hash, [currentHeaderHash] is the hash of the current header, and no
    [SetHead] on it comes to call [Hash] on a nil header. *)
Theorem NewHeaderChain_result
    (Header_Hash : Header -> cmn.Hash) (db : Database) (headBlockHash : cmn.Hash) :
  match NewHeaderChain Header_Hash db headBlockHash with
  | ErrNoGenesis =>
      ReadCanonicalHash db 0%N = cmn.Hash_zero \/
      header db !! (ReadCanonicalHash db 0%N, 0%N) = None
  | Created hc =>
      exists g cur,
        ReadCanonicalHash db 0%N <> cmn.Hash_zero /\
        header db !! (ReadCanonicalHash db 0%N, 0%N) = Some g /\
        chainDb hc = db /\
        genesisHeader hc = Some g /\
        CurrentHeader hc = Some cur /\
        currentHeaderHash hc = Header_Hash cur /\
        (cur = g \/
         headBlockHash <> cmn.Hash_zero /\
         exists n, header_height db !! headBlockHash = Some n /\
                   header db !! (headBlockHash, n) = Some cur) /\
        (forall fuel head delFn,
            SetHead Header_Hash fuel head delFn hc <> HashOfNil)
  end.
Proof.
  unfold NewHeaderChain, GetHeaderByHeight. cbn [chainDb].
  destruct (N.eqb_spec (ReadCanonicalHash db 0%N) cmn.Hash_zero) as [Hz|Hnz];
    [left; exact Hz|].
  unfold GetHeader at 1. unfold lru.Get at 1. cbn [headerCache lru.New lru.items lru.find].
  unfold ReadHeader. cbn [chainDb].
  destruct (header db !! (ReadCanonicalHash db 0%N, 0%N)) as [g|] eqn:Hg;
    [|right; reflexivity].
  set (hc1 := currentHeader_Store _ _).
  assert (Hhc1 : chainDb hc1 = db /\ genesisHeader hc1 = Some g /\
                 currentHeader hc1 = Some g /\
                 forall k x, lru.find k (lru.items (headerCache hc1)) = Some x ->
                             k = ReadCanonicalHash db 0%N /\ x = g).
  { subst hc1. cbn.
    split; [reflexivity|]. split; [reflexivity|]. split; [reflexivity|].
    intros key hdr Hf.
    destruct (N.eqb_spec key (ReadCanonicalHash db 0%N)) as [->|_];
      [|discriminate].
    split; congruence. }
  destruct Hhc1 as (Hdb1 & Hg1 & Hc1 & Hcache1).
  destruct (negb (N.eqb headBlockHash cmn.Hash_zero)) eqn:Hhb.
  - apply negb_true_iff, N.eqb_neq in Hhb.
    unfold GetHeaderByHash.
    pose proof (GetBlockHeight_frame headBlockHash hc1) as (Hdb2 & Hg2 & Hc2 & Hcache2).
    assert (Hheight : forall n, fst (GetBlockHeight headBlockHash hc1) = Some n ->
                                header_height db !! headBlockHash = Some n).
    { intros n. unfold GetBlockHeight, lru.Get.
      subst hc1. cbn. unfold ReadHeaderHeight. cbn.
      destruct (header_height db !! headBlockHash); cbn; congruence. }
    destruct (GetBlockHeight headBlockHash hc1) as [[n|] hc2]; cbn [fst snd] in *.
    + pose proof (GetHeader_Some headBlockHash n hc2) as Hsome.
      pose proof (GetHeader_frame headBlockHash n hc2) as Hframe.
      destruct (GetHeader headBlockHash n hc2) as [[chead|] hc3].
      * cbn [fst] in Hsome.
        destruct (Hframe _ _ eq_refl) as (Hdb3 & Hg3 & _).
        exists g, chead. cbn.
        split; [exact Hnz|]. split; [reflexivity|].
        split; [congruence|]. split; [congruence|].
        split; [reflexivity|]. split; [reflexivity|]. split.
        -- destruct (Hsome chead eq_refl) as [Hc | Hm].
           ++ left. rewrite Hcache2 in Hc. apply Hcache1 in Hc. tauto.
           ++ right. split; [exact Hhb|]. exists n. split; [auto|].
              rewrite Hdb2, Hdb1 in Hm. exact Hm.
        -- intros fuel head delFn. apply (SetHead_not_HashOfNil _ _ _ _ _ g). cbn. congruence.
      * destruct (Hframe _ _ eq_refl) as (Hdb3 & Hg3 & Hc3 & _).
        exists g, g. cbn.
        split; [exact Hnz|]. split; [reflexivity|].
        split; [congruence|]. split; [congruence|].
        split; [congruence|]. split; [reflexivity|]. split; [left; reflexivity|].
        intros fuel head delFn. apply (SetHead_not_HashOfNil _ _ _ _ _ g). cbn. congruence.
    + exists g, g. cbn.
      split; [exact Hnz|]. split; [reflexivity|].
      split; [congruence|]. split; [congruence|].
      split; [congruence|]. split; [reflexivity|]. split; [left; reflexivity|].
      intros fuel head delFn. apply (SetHead_not_HashOfNil _ _ _ _ _ g). cbn. congruence.
  - exists g, g. cbn.
    split; [exact Hnz|]. split; [reflexivity|].
    split; [assumption|]. split; [assumption|].
    split; [assumption|]. split; [reflexivity|]. split; [left; reflexivity|].
    intros fuel head delFn. apply (SetHead_not_HashOfNil _ _ _ _ _ g). cbn. assumption.
Qed.

(* ===================================================================== *)
(** * Further properties of the consensus reactor *)
(* ===================================================================== *)

Import reactor.

(** ** The round-step handler *)

(** The handler on a decodable message, for a running reactor and a
    peer state whose mutex is free, in terms of the critical section. *)
Lemma ReceiveNewRoundStep_unfold now wire w ps n :
  running (conR w) = true ->
  peer_State (src w) = Some ps -> mtx ps = false ->
  let n3 := Pos.succ (Pos.succ (Pos.succ n)) in
  let msg := mkNewRoundStepMessage
               (mkBigInt n (wire_Height wire))
               (mkBigInt (Pos.succ n) (wire_Round wire))
               (wire_Step wire)
               (wire_SecondsSinceStartTime wire)
               (mkBigInt (Pos.succ (Pos.succ n)) (wire_LastCommitRound wire)) in
  ReceiveNewRoundStep now (MsgNewRoundStep wire) w n
  = (Returns (mkWorld (conR w)
                (with_State (src w)
                   (mkPeerState false
                      (fst (applyNewRoundStep now msg (PRS ps) n3))))),
     snd (applyNewRoundStep now msg (PRS ps) n3)).
Proof.
  intros Hrun Hps Hmtx n3 msg.
  unfold ReceiveNewRoundStep. rewrite Hrun. cbn [negb].
  unfold bind at 1. rewrite Decode_NewRoundStep_wire, Hps, Hmtx.
  unfold bind, ret. fold n3 msg.
  destruct (applyNewRoundStep now msg (PRS ps) n3). reflexivity.
Qed.

(** A message whose triple is not above the mirror's leaves the mirror
    and the allocator as they are. *)
Lemma applyNewRoundStep_dropped now msg prs k :
  hrs_le (value (msg_Height msg), value (msg_Round msg), step_rank (msg_Step msg))
         (hrs_of prs) ->
  applyNewRoundStep now msg prs k = (prs, k).
Proof.
  intros Hle. apply CompareHRS_le_spec in Hle.
  unfold applyNewRoundStep. rewrite Hle. reflexivity.
Qed.

(** X8.  Duplicates are ignored: when a running reactor has handled a
    NewRoundStep message for a peer state whose mutex is free, handling
    the same message once more, at whatever time, leaves the reactor and
    the peer state exactly as they are. *)
Theorem ReceiveNewRoundStep_duplicate
    (now1 now2 : Z) (wire : WireNewRoundStep) (w : World) (ps : PeerState)
    (n : positive) :
  running (conR w) = true ->
  peer_State (src w) = Some ps -> mtx ps = false ->
  exists w1 n1 n2,
    ReceiveNewRoundStep now1 (MsgNewRoundStep wire) w n = (Returns w1, n1) /\
    ReceiveNewRoundStep now2 (MsgNewRoundStep wire) w1 n1 = (Returns w1, n2).
Proof.
  intros Hrun Hps Hmtx.
  rewrite (ReceiveNewRoundStep_unfold now1 wire w ps n Hrun Hps Hmtx).
  cbv zeta.
  set (msg1 := mkNewRoundStepMessage _ _ _ _ _).
  set (n3 := Pos.succ (Pos.succ (Pos.succ n))).
  destruct (applyNewRoundStep now1 msg1 (PRS ps) n3) as [prs1 n1] eqn:Happ.
  cbn [fst snd].
  eexists. exists n1. eexists. split; [reflexivity|].
  rewrite (ReceiveNewRoundStep_unfold now2 wire
             (mkWorld (conR w) (with_State (src w) (mkPeerState false prs1)))
             (mkPeerState false prs1) n1 Hrun eq_refl eq_refl).
  cbv zeta. cbn [conR src with_State peer_ID PRS].
  rewrite applyNewRoundStep_dropped; [reflexivity|].
  cbn [msg_Height msg_Round msg_Step value].
  pose proof (applyNewRoundStep_HRS now1 msg1 (PRS ps) n3) as [Hle Hgt].
  rewrite Happ in Hle, Hgt. cbn [fst] in Hle, Hgt.
  destruct (CompareHRS (msg_Height msg1) (msg_Round msg1) (msg_Step msg1)
              (cstypes.Height (PRS ps)) (Round (PRS ps)) (Step (PRS ps)) <=? 0) eqn:Hc.
  - rewrite (Hle eq_refl). apply CompareHRS_le_spec in Hc. exact Hc.
  - destruct (Hgt eq_refl) as (Hh & Hr & Hs). unfold hrs_of.
    rewrite Hh, Hr, Hs. apply hrs_le_refl.
Qed.

(** The step (H=6, R=0, NewHeight) handled twice for the mirror at
    (H=5, R=2). *)
Lemma ReceiveNewRoundStep_duplicate_witness :
  exists w1 n1 n2,
    ReceiveNewRoundStep 0 (MsgNewRoundStep step_6_0) (world_of mirror_5_2)
      6%positive
      = (Returns w1, n1) /\
    ReceiveNewRoundStep 9 (MsgNewRoundStep step_6_0) w1 n1 = (Returns w1, n2).
Proof.
  apply (ReceiveNewRoundStep_duplicate 0 9 step_6_0 (world_of mirror_5_2)
           (mkPeerState false mirror_5_2) 6%positive); reflexivity.
Defined.

(** The proposal and vote fields after the critical section, for a
    message that is above the mirror and whose height is another cell
    than the mirror's. *)
Lemma applyNewRoundStep_round_fields now msg prs k :
  ptr_eq (cstypes.Height prs) (msg_Height msg) = false ->
  (CompareHRS (msg_Height msg) (msg_Round msg) (msg_Step msg)
              (cstypes.Height prs) (Round prs) (Step prs) <=? 0) = false ->
  let prs' := fst (applyNewRoundStep now msg prs k) in
  (Equals (cstypes.Height prs) (msg_Height msg)
   && Equals (Round prs) (msg_Round msg) = true ->
   Proposal prs' = Proposal prs /\
   ProposalBlockHeader prs' = ProposalBlockHeader prs /\
   ProposalPOLRound prs' = ProposalPOLRound prs /\
   ProposalPOL prs' = ProposalPOL prs /\
   Prevotes prs' = Prevotes prs /\
   Precommits prs' = Precommits prs) /\
  (Equals (cstypes.Height prs) (msg_Height msg)
   && Equals (Round prs) (msg_Round msg) = false ->
   Proposal prs' = false /\
   ProposalBlockHeader prs' = Hash_zero /\
   value (ProposalPOLRound prs') = -1 /\
   ProposalPOL prs' = None /\
   Prevotes prs' = None /\
   Precommits prs' = None).
Proof.
  intros Hptr Hcmp. unfold applyNewRoundStep. rewrite Hcmp, Hptr.
  unfold bind, ret, Add, NewBigInt. cbn [andb negb].
  destruct (Equals (cstypes.Height prs) (msg_Height msg)) eqn:Hh;
    destruct (Equals (Round prs) (msg_Round msg)) eqn:Hr;
    cbn [andb orb negb]; split; intros Hcase; try discriminate;
    simpl; repeat (break_if; simpl); repeat split.
Qed.

(** X9.  A NewRoundStep message that is above the mirror, handled by a
    running reactor for a peer state whose mutex is free and whose
    integers were allocated before the message came: if it changes the
    height or the round, the mirror ends without proposal, with the zero
    block header hash, POL round -1 and nil POL, prevotes and precommits;
    if it changes the step only, these six fields are as before. *)
Theorem ReceiveNewRoundStep_round_fields
    (now : Z) (wire : WireNewRoundStep) (w : World) (ps : PeerState)
    (n : positive) :
  running (conR w) = true ->
  peer_State (src w) = Some ps -> mtx ps = false ->
  allocated n (PRS ps) ->
  ~ hrs_le (hrs_of_wire wire) (hrs_of (PRS ps)) ->
  exists ps' n',
    ReceiveNewRoundStep now (MsgNewRoundStep wire) w n
      = (Returns (mkWorld (conR w) (with_State (src w) ps')), n') /\
    (value (cstypes.Height (PRS ps)) = wire_Height wire ->
     value (Round (PRS ps)) = wire_Round wire ->
     Proposal (PRS ps') = Proposal (PRS ps) /\
     ProposalBlockHeader (PRS ps') = ProposalBlockHeader (PRS ps) /\
     ProposalPOLRound (PRS ps') = ProposalPOLRound (PRS ps) /\
     ProposalPOL (PRS ps') = ProposalPOL (PRS ps) /\
     Prevotes (PRS ps') = Prevotes (PRS ps) /\
     Precommits (PRS ps') = Precommits (PRS ps)) /\
    (value (cstypes.Height (PRS ps)) <> wire_Height wire \/
     value (Round (PRS ps)) <> wire_Round wire ->
     Proposal (PRS ps') = false /\
     ProposalBlockHeader (PRS ps') = Hash_zero /\
     value (ProposalPOLRound (PRS ps')) = -1 /\
     ProposalPOL (PRS ps') = None /\
     Prevotes (PRS ps') = None /\
     Precommits (PRS ps') = None).
Proof.
  intros Hrun Hps Hmtx Halloc Hnew.
  rewrite (ReceiveNewRoundStep_unfold now wire w ps n Hrun Hps Hmtx).
  cbv zeta.
  destruct (decoded_fresh wire n (PRS ps) Halloc _ _
              (Decode_NewRoundStep_wire wire n)) as (Hptr & _ & _ & _).
  set (msg := mkNewRoundStepMessage _ _ _ _ _) in *.
  set (n3 := Pos.succ (Pos.succ (Pos.succ n))).
  assert (Hcmp : (CompareHRS (msg_Height msg) (msg_Round msg) (msg_Step msg)
                    (cstypes.Height (PRS ps)) (Round (PRS ps)) (Step (PRS ps))
                  <=? 0) = false).
  { destruct (CompareHRS _ _ _ _ _ _ <=? 0) eqn:Hc; [|reflexivity].
    exfalso. apply Hnew. apply CompareHRS_le_spec in Hc. exact Hc. }
  pose proof (applyNewRoundStep_round_fields now msg (PRS ps) n3 Hptr Hcmp)
    as [Hsame Hclear].
  cbv zeta in Hsame, Hclear.
  eexists. eexists. split; [reflexivity|]. cbn [PRS]. split.
  - intros Hh Hr. apply Hsame. unfold Equals. subst msg. cbn.
    apply andb_true_iff. split; apply Z.eqb_eq; assumption.
  - intros Hne. apply Hclear. unfold Equals. subst msg. cbn.
    apply andb_false_iff.
    destruct Hne as [Hh | Hr]; [left | right]; apply Z.eqb_neq; assumption.
Qed.

(** (H=6, R=0, NewHeight) for the mirror at (H=5, R=2), which holds the
    precommits [1,0,1]. *)
Lemma ReceiveNewRoundStep_round_fields_witness :
  exists prs',
    mirror_after (ReceiveNewRoundStep 0 (MsgNewRoundStep step_6_0)
                    (world_of mirror_5_2)) = Some prs' /\
    Precommits prs' = None /\ Prevotes prs' = None /\ Proposal prs' = false.
Proof.
  destruct (ReceiveNewRoundStep_round_fields 0 step_6_0 (world_of mirror_5_2)
              (mkPeerState false mirror_5_2) 6%positive
              eq_refl eq_refl eq_refl)
    as (ps' & n' & Hrun & _ & Hclear).
  - repeat split.
  - intros Hle. vm_compute in Hle. intuition discriminate.
  - exists (PRS ps'). unfold mirror_after. rewrite Hrun. cbn.
    destruct Hclear as (Hp & _ & _ & _ & Hv & Hc);
      [left; cbn; discriminate|].
    repeat split; assumption.
Defined.

(** ** What the handlers ignore *)

(** X10.  The handlers of NewRoundStep, Proposal and Vote messages return
    with the reactor and the peer exactly as they were (no queue entry,
    no change of the mirror, no mutex taken) when the reactor is not
    running, when the peer has no state, and when the message does not
    decode as the handler's message type. *)
Theorem handlers_ignore (now : Z) (m : Msg) (w : World) (n : positive) :
  (running (conR w) = false \/ peer_State (src w) = None ->
   fst (ReceiveNewRoundStep now m w n) = Returns w /\
   fst (ReceiveNewProposal m w n) = Returns w /\
   fst (ReceiveNewVote m w n) = Returns w) /\
  ((forall wire, m <> MsgNewRoundStep wire) ->
   fst (ReceiveNewRoundStep now m w n) = Returns w) /\
  ((forall p, m <> MsgProposal p) -> fst (ReceiveNewProposal m w n) = Returns w) /\
  ((forall v, m <> MsgVote v) -> fst (ReceiveNewVote m w n) = Returns w).
Proof.
  unfold ReceiveNewRoundStep, ReceiveNewProposal, ReceiveNewVote.
  split; [|split; [|split]].
  - intros [Hrun | Hps].
    + rewrite Hrun. repeat split.
    + destruct (running (conR w)); cbn [negb]; [|repeat split].
      unfold bind, ret. destruct m; cbn; rewrite ?Hps; repeat split.
  - intros Hm. destruct (running (conR w)); cbn [negb]; [|reflexivity].
    destruct m; try reflexivity. exfalso. exact (Hm w0 eq_refl).
  - intros Hm. destruct (running (conR w)); cbn [negb]; [|reflexivity].
    destruct m; try reflexivity. exfalso. exact (Hm w0 eq_refl).
  - intros Hm. destruct (running (conR w)); cbn [negb]; [|reflexivity].
    destruct m; try reflexivity. exfalso. exact (Hm w0 eq_refl).
Qed.

(** ** The proposal handler *)

(** X11.  A Proposal message that decodes, handled by a running reactor
    for a peer state whose mutex is free.  When the input queue has room
    (it holds fewer entries than its capacity), the handler returns, the
    mirror is the one [SetHasProposal] makes of it, the mutex is free
    again, and the input queue has one more entry at its end, the
    proposal with the identifier of the peer -- whether or not the
    mirror took the proposal.  When the input queue is full, the handler
    does not return: it waits in the send on the channel, which comes
    after the call of [SetHasProposal], and this call has returned. *)
Theorem ReceiveNewProposal_sets_and_enqueues
    (p : WireProposal) (w : World) (ps : PeerState) (n : positive) :
  running (conR w) = true ->
  peer_State (src w) = Some ps -> mtx ps = false ->
  exists proposal n',
    value (types.prop_Height proposal) = wire_prop_Height p /\
    value (types.prop_Round proposal) = wire_prop_Round p /\
    value (types.prop_POLRound proposal) = wire_prop_POLRound p /\
    types.prop_Block_Header_Hash proposal = wire_prop_Block_Header_Hash p /\
    ((length (peerMsgQueue (conR w)) < peerMsgQueue_cap (conR w))%nat ->
     ReceiveNewProposal (MsgProposal p) w n
     = (Returns
          (mkWorld
             (mkConsensusReactor (running (conR w))
                (peerMsgQueue (conR w)
                   ++ [mkMsgInfo (QueuedProposal proposal) (peer_ID (src w))])
                (peerMsgQueue_cap (conR w)))
             (with_State (src w)
                (mkPeerState false (setHasProposal proposal (PRS ps))))),
        n')) /\
    ((peerMsgQueue_cap (conR w) <= length (peerMsgQueue (conR w)))%nat ->
     ReceiveNewProposal (MsgProposal p) w n = (Blocked, n') /\
     SetHasProposal proposal ps
     = Returns (mkPeerState false (setHasProposal proposal (PRS ps))) /\
     enqueue (mkMsgInfo (QueuedProposal proposal) (peer_ID (src w))) (conR w)
     = Blocked).
Proof.
  intros Hrun Hps Hmtx.
  unfold ReceiveNewProposal. rewrite Hrun. cbn [negb].
  unfold bind at 1. cbn [Decode_Proposal]. unfold bind, ret, NewBigInt.
  rewrite Hps. unfold SetHasProposal, enqueue. rewrite Hmtx, ?Hrun.
  exists (types.mkProposal
            (mkBigInt n (wire_prop_Height p))
            (mkBigInt (Pos.succ n) (wire_prop_Round p))
            (mkBigInt (Pos.succ (Pos.succ n)) (wire_prop_POLRound p))
            (wire_prop_Block_Header_Hash p)).
  eexists.
  split; [reflexivity|]. split; [reflexivity|]. split; [reflexivity|].
  split; [reflexivity|].
  destruct (Nat.ltb_spec (length (peerMsgQueue (conR w)))
              (peerMsgQueue_cap (conR w))) as [Hroom|Hfull].
  - split; [intros _; reflexivity | intros Hle; lia].
  - split; [intros Hlt; lia | intros _].
    split; [reflexivity|]. split; reflexivity.
Qed.

(** The proposal for (H=5, R=2) received for the mirror at (H=5, R=1),
    the input queue being empty: it is queued, and the mirror has no
    proposal. *)
Lemma ReceiveNewProposal_sets_and_enqueues_witness :
  exists w' n',
    ReceiveNewProposal (MsgProposal (mkWireProposal 5 2 (-1) 99%N))
      (world_of mirror_5_1) 6%positive = (Returns w', n') /\
    length (peerMsgQueue (conR w')) = 1%nat /\
    (Proposal <$> (PRS <$> peer_State (src w'))) = Some false.
Proof.
  destruct (ReceiveNewProposal_sets_and_enqueues
              (mkWireProposal 5 2 (-1) 99%N) (world_of mirror_5_1)
              (mkPeerState false mirror_5_1) 6%positive
              eq_refl eq_refl eq_refl)
    as (proposal & n' & Hh & Hr & _ & _ & Hroom & _).
  eexists. exists n'.
  split; [apply Hroom; cbn; lia|]. split; [reflexivity|].
  cbn. unfold setHasProposal, Equals. cbn.
  rewrite Hh, Hr. reflexivity.
Defined.

(** ** The mutex after the vote handler *)

(** X12.  After the vote handler has returned for a Vote message that
    decodes (running reactor, peer state with free mutex), the mutex of
    the peer state is held for good: every later handler call for this
    peer with a message that decodes, [SetHasProposal],
    [GetRoundState] and the data gossip routine of the peer wait for
    ever in [Lock]. *)
Theorem vote_handler_keeps_mutex
    (vote : WireVote) (w : World) (ps : PeerState) (n : positive) :
  running (conR w) = true ->
  peer_State (src w) = Some ps -> mtx ps = false ->
  exists w' ps' n',
    ReceiveNewVote (MsgVote vote) w n = (Returns w', n') /\
    peer_State (src w') = Some ps' /\
    (forall now wire k,
        fst (ReceiveNewRoundStep now (MsgNewRoundStep wire) w' k) = Blocked) /\
    (forall p k, fst (ReceiveNewProposal (MsgProposal p) w' k) = Blocked) /\
    (forall v k, fst (ReceiveNewVote (MsgVote v) w' k) = Blocked) /\
    (forall proposal, SetHasProposal proposal ps' = Blocked) /\
    GetRoundState ps' = Blocked /\
    (forall rs, gossipData_turn true (conR w') rs ps' = (BlockedOnMutex, [], ps')).
Proof.
  intros Hrun Hps Hmtx.
  unfold ReceiveNewVote. rewrite Hrun. cbn [negb].
  unfold bind at 1. cbn [Decode_Vote]. unfold bind, ret, NewBigInt.
  rewrite Hps, Hmtx.
  eexists. eexists. eexists. split; [reflexivity|].
  split; [reflexivity|].
  unfold ReceiveNewRoundStep, ReceiveNewProposal, ReceiveNewVote,
    gossipData_turn, GetRoundState, SetHasProposal.
  cbn. rewrite Hrun. cbn. repeat split.
Qed.

(** The vote of validator 2 for the mirror at (H=5, R=2), and the step
    to (H=6, R=0) after it. *)
Lemma vote_handler_keeps_mutex_witness :
  exists w' n',
    ReceiveNewVote (MsgVote vote_5_2) (world_of mirror_5_2) 6%positive
      = (Returns w', n') /\
    fst (ReceiveNewRoundStep 0 (MsgNewRoundStep step_6_0) w' n') = Blocked.
Proof.
  destruct (vote_handler_keeps_mutex vote_5_2 (world_of mirror_5_2)
              (mkPeerState false mirror_5_2) 6%positive
              eq_refl eq_refl eq_refl)
    as (w' & ps' & n' & Hrun & _ & Hstep & _).
  exists w', n'. split; [exact Hrun | apply Hstep].
Defined.

(** ** getVoteBitArray *)

(** X13.  [getVoteBitArray(height, round, type_)], by vote type.  For a
    prevote: at the mirror's height, the prevotes for the mirror's round,
    else the POL bit array for the POL round, else nil.  For a precommit:
    at the mirror's height, the precommits for the mirror's round and nil
    for any other round; one height below the mirror's, the last commit
    for the last commit round.  Nil in every other case: any other
    height, any other type. *)
Theorem getVoteBitArray_table
    (VoteTypePrevote VoteTypePrecommit : Z) (prs : PeerRoundState)
    (height round : BigInt) (type_ : Z) (n : positive) :
  fst (getVoteBitArray VoteTypePrevote VoteTypePrecommit prs height round type_ n)
  = if type_ =? VoteTypePrevote then
      if value (cstypes.Height prs) =? value height then
        if value (Round prs) =? value round then Prevotes prs
        else if value (ProposalPOLRound prs) =? value round then ProposalPOL prs
        else None
      else None
    else if type_ =? VoteTypePrecommit then
      if value (cstypes.Height prs) =? value height then
        if value (Round prs) =? value round then Precommits prs else None
      else if (value (cstypes.Height prs) =? value height + 1)
              && (value (LastCommitRound prs) =? value round)
      then LastCommit prs
      else None
    else None.
Proof.
  unfold getVoteBitArray, IsVoteTypeValid, switch_type, Equals, bind, ret,
    Add, NewBigInt.
  destruct (type_ =? VoteTypePrevote) eqn:Hpv;
    destruct (type_ =? VoteTypePrecommit) eqn:Hpc; cbn [orb negb];
    repeat (break_if; cbn); try reflexivity; try discriminate.
Qed.

(** ** The data gossip routine *)

(** X14.  One turn of the data gossip routine for a live peer and a
    running reactor, the mutex of the peer state free, the mirror at the
    local height and round and without proposal, the local round state
    holding a proposal.  The proposal is handed to [Send] first (and the
    turn ends with [continue]).  If the proposal's own height and round
    are those of the round state, the mirror then has the proposal and
    the next turn sends nothing and sleeps.  If they are not, the peer
    state is left as it was, so that every further turn sends the
    proposal again. *)
Theorem proposal_gossiped_once
    (c : ConsensusReactor) (rs : RoundState) (ps : PeerState)
    (proposal : types.Proposal) :
  running c = true -> mtx ps = false ->
  value (rs_Height rs) = value (cstypes.Height (PRS ps)) ->
  value (rs_Round rs) = value (Round (PRS ps)) ->
  rs_Proposal rs = Some proposal ->
  Proposal (PRS ps) = false ->
  exists msgs ps',
    gossipData_turn true c rs ps = (Continued, SentProposal proposal :: msgs, ps') /\
    (value (types.prop_Height proposal) = value (rs_Height rs) ->
     value (types.prop_Round proposal) = value (rs_Round rs) ->
     Proposal (PRS ps') = true /\
     gossipData_turn true c rs ps' = (Slept, [], ps')) /\
    (value (types.prop_Height proposal) <> value (rs_Height rs) \/
     value (types.prop_Round proposal) <> value (rs_Round rs) ->
     ps' = ps).
Proof.
  intros Hrun Hmtx Hh Hr Hprop Hnone.
  assert (Hturn : forall ps0, mtx ps0 = false ->
             cstypes.Height (PRS ps0) = cstypes.Height (PRS ps) ->
             Round (PRS ps0) = Round (PRS ps) ->
             gossipData_turn true c rs ps0
             = if negb (Proposal (PRS ps0)) then
                 match SetHasProposal proposal ps0 with
                 | Blocked => (BlockedOnMutex, [SentProposal proposal], ps0)
                 | Returns ps' =>
                     (Continued,
                      if IsGreaterThanOrEqualThanInt (types.prop_POLRound proposal) 0
                      then [SentProposal proposal] ++
                           [SentProposalPOL (rs_Height rs)
                              (types.prop_POLRound proposal)
                              (rs_Votes_Prevotes_BitArray rs
                                 (Int32 (types.prop_POLRound proposal)))]
                      else [SentProposal proposal],
                      ps')
                 end
               else (Slept, [], ps0)).
  { intros ps0 Hm0 Hh0 Hr0.
    unfold gossipData_turn, GetRoundState. rewrite Hrun, Hm0. cbn [negb orb].
    unfold IsGreaterThanInt, IsLessThan, Equals. rewrite Hh0, Hr0, <- Hh, <- Hr.
    rewrite Z.ltb_irrefl, andb_false_r, !Z.eqb_refl. cbn [negb orb].
    rewrite Hprop. reflexivity. }
  rewrite (Hturn ps Hmtx eq_refl eq_refl), Hnone. cbn [negb].
  unfold SetHasProposal. rewrite Hmtx.
  exists (if IsGreaterThanOrEqualThanInt (types.prop_POLRound proposal) 0
          then [SentProposalPOL (rs_Height rs) (types.prop_POLRound proposal)
                  (rs_Votes_Prevotes_BitArray rs
                     (Int32 (types.prop_POLRound proposal)))]
          else []).
  eexists. split.
  { destruct (IsGreaterThanOrEqualThanInt _ _); reflexivity. }
  unfold setHasProposal, Equals. rewrite <- Hh, <- Hr, Hnone. split.
  - intros Hph Hpr. rewrite Hph, Hpr, !Z.eqb_refl. cbn [negb orb].
    split; [reflexivity|].
    rewrite (Hturn (mkPeerState false (record_proposal proposal (PRS ps)))
               eq_refl eq_refl eq_refl).
    reflexivity.
  - intros Hne.
    assert (Hmis : negb (value (rs_Height rs) =? value (types.prop_Height proposal))
                   || negb (value (rs_Round rs) =? value (types.prop_Round proposal))
                   = true).
    { apply orb_true_iff.
      destruct Hne as [Hne | Hne]; [left | right];
        apply negb_true_iff, Z.eqb_neq; congruence. }
    rewrite Hmis. destruct ps; cbn in *; subst; reflexivity.
Qed.

(** The round state at (H=5, R=2) with its proposal, gossiped to the
    mirror at (H=5, R=2). *)
Lemma proposal_gossiped_once_witness :
  exists msgs ps',
    gossipData_turn true reactor0 reactor_props.round_state_5_2
      (mkPeerState false mirror_5_2)
    = (Continued, SentProposal proposal_5_2 :: msgs, ps') /\
    gossipData_turn true reactor0 reactor_props.round_state_5_2 ps'
    = (Slept, [], ps').
Proof.
  destruct (proposal_gossiped_once reactor0 reactor_props.round_state_5_2
              (mkPeerState false mirror_5_2) proposal_5_2
              eq_refl eq_refl eq_refl eq_refl eq_refl eq_refl)
    as (msgs & ps' & Hturn & Honce & _).
  exists msgs, ps'. split; [exact Hturn|].
  exact (proj2 (Honce eq_refl eq_refl)).
Defined.

(** Closes the case of a turn that sends nothing and does not panic. *)
Ltac gossip_nothing_sent :=
  cbn; split;
  [ left; split; reflexivity
  | split; [ discriminate
           | intros (Ha & Hb & Hc & Hd); first [congruence | lia] ] ].

(** X15.  A turn of the data gossip routine hands messages to [Send]
    only for a live peer and a running reactor, when the mirror is at the
    local height and round and has no proposal while the local round
    state has one: then the proposal comes first and is followed by the
    POL message exactly when the proposal's POL round is at least 0, and
    the peer state is changed by [SetHasProposal] alone.  In every other
    case nothing is sent and the peer state is as before.  The turn
    panics exactly when the peer is live, the reactor runs, the mutex is
    free and the mirror's height is above 0 and below the local
    height. *)
Theorem gossipData_turn_sends
    (peer_IsAlive : bool) (c : ConsensusReactor) (rs : RoundState)
    (ps : PeerState) :
  let '(t, msgs, ps') := gossipData_turn peer_IsAlive c rs ps in
  (msgs = [] /\ ps' = ps \/
   exists proposal,
     peer_IsAlive = true /\ running c = true /\ mtx ps = false /\
     value (rs_Height rs) = value (cstypes.Height (PRS ps)) /\
     value (rs_Round rs) = value (Round (PRS ps)) /\
     rs_Proposal rs = Some proposal /\
     Proposal (PRS ps) = false /\
     t = Continued /\
     ps' = mkPeerState false (setHasProposal proposal (PRS ps)) /\
     msgs = SentProposal proposal ::
            (if 0 <=? value (types.prop_POLRound proposal)
             then [SentProposalPOL (rs_Height rs) (types.prop_POLRound proposal)
                     (rs_Votes_Prevotes_BitArray rs
                        (Int32 (types.prop_POLRound proposal)))]
             else [])) /\
  (t = Panicked <->
   peer_IsAlive = true /\ running c = true /\ mtx ps = false /\
   0 < value (cstypes.Height (PRS ps)) < value (rs_Height rs)).
Proof.
  unfold gossipData_turn, GetRoundState, SetHasProposal,
    IsGreaterThanInt, IsLessThan, IsGreaterThanOrEqualThanInt, Equals.
  destruct peer_IsAlive; cbn [negb orb]; [|gossip_nothing_sent].
  destruct (running c) eqn:Hrun; cbn [negb orb]; [|gossip_nothing_sent].
  destruct (mtx ps) eqn:Hmtx; [gossip_nothing_sent|].
  destruct (Z.ltb_spec 0 (value (cstypes.Height (PRS ps)))) as [Hpos|Hpos];
    destruct (Z.ltb_spec (value (cstypes.Height (PRS ps))) (value (rs_Height rs)))
      as [Hlow|Hlow];
    cbn [andb].
  { cbn. split; [left; split; reflexivity|].
    split; [intros _; repeat split; assumption | reflexivity]. }
  all: destruct (Z.eqb_spec (value (rs_Height rs)) (value (cstypes.Height (PRS ps))))
         as [Hh|Hh]; cbn [negb orb]; [|gossip_nothing_sent ..].
  all: destruct (Z.eqb_spec (value (rs_Round rs)) (value (Round (PRS ps))))
         as [Hr|Hr]; cbn [negb orb]; [|gossip_nothing_sent ..].
  all: destruct (rs_Proposal rs) as [proposal|] eqn:Hprop; [|gossip_nothing_sent ..].
  all: destruct (Proposal (PRS ps)) eqn:Hnone; cbn [negb]; [gossip_nothing_sent ..|].
  all: split;
    [ right; exists proposal;
      destruct (0 <=? value (types.prop_POLRound proposal)); repeat split; auto
    | split; [ destruct (0 <=? value (types.prop_POLRound proposal)); discriminate
             | intros (_ & _ & _ & Hbad); lia ] ].
Qed.
